(** * Block engine of the aggregating-chain node: a shallow embedding

    The development follows the layout of the JavaScript sources:

    - [BN]          the part of the big-integer library (bn.js) that the
                    difficulty code and the engine call;
    - [Miner]       src/bc/miner.es6: [getDiff], [distance], [mine];
    - [Multiverse]  src/bc/multiverse.es6: [addBlock];
    - [BlockPool]   src/bc/blockpool.es6: [addBlock], [purgeFrom];
    - [Engine]      the engine coordinator: [storeHeight], [collectBlock].

    JavaScript exceptions and rejected promises are values of [outcome];
    objects that are mutated in place are threaded explicitly. *)

From Stdlib Require Import ZArith Lia Permutation Sorted Floats Uint63.
From Equations Require Import Equations.
From stdpp Require Import gmap strings pretty list fin_maps.

Set Default Proof Using "Type".
Local Open Scope Z_scope.

(** ** Exceptions and promises *)

Inductive exn : Type :=
| TypeError (msg : string)   (* property of undefined, not a function *)
| AssertionError             (* bn.js [assert] *)
| RangeError                 (* call depth exceeded *)
| Error (msg : string).      (* [new Error(msg)] *)

Inductive outcome (A : Type) : Type :=
| Ok (a : A)
| Throw (e : exn).
Arguments Ok {A} a.
Arguments Throw {A} e.

Global Instance outcome_ret : MRet outcome := @Ok.
Global Instance outcome_bind : MBind outcome := fun A B f c =>
  match c with
  | Ok a => f a
  | Throw e => Throw e
  end.

(** ** Protocol messages (protos/core_pb) *)

(** Modelled from the spec: the generated message classes are not part of
    the sources.  A parent block is the record of the accessors the engine
    calls: [getTotalDistance] is the integer the decimal string denotes,
    [getBlockchainHeaders] lists, per chain key, the hashes of the child
    headers. *)
Record BcBlock : Type := {
  getHash : string;
  getPreviousHash : string;
  getHeight : Z;
  getTimestamp : Z;
  getTotalDistance : Z;
  getBlockchainHeaders : list (string * list string)
}.

(** A promise that has settled. *)
Inductive promise (A : Type) : Type :=
| Resolved (a : A)
| Rejected (e : exn).
Arguments Resolved {A} a.
Arguments Rejected {A} e.

(** What the methods below resolve with. *)
Inductive value : Type :=
| VUndefined
| VTrue
| VFalse
| VBlock (b : BcBlock).

(** Method bodies that mutate [this]: the object is threaded through, and
    it keeps the mutations made before an exception. *)
Definition M (S A : Type) : Type := S -> outcome A * S.

Global Instance M_ret {S} : MRet (M S) := fun A a s => (Ok a, s).
Global Instance M_bind {S} : MBind (M S) := fun A B f c s =>
  match c s with
  | (Ok a, s') => f a s'
  | (Throw e, s') => (Throw e, s')
  end.

Definition throw {S A} (e : exn) : M S A := fun s => (Throw e, s).
Definition lift {S A} (c : outcome A) : M S A := fun s => (c, s).
Definition gets {S A} (f : S -> A) : M S A := fun s => (Ok (f s), s).
Definition modify {S} (f : S -> S) : M S unit := fun s => (Ok tt, f s).

(** [try { c } catch (err) { h err }] *)
Definition try_catch {S A} (c : M S A) (h : exn -> M S A) : M S A := fun s =>
  match c s with
  | (Ok a, s') => (Ok a, s')
  | (Throw e, s') => h e s'
  end.

(** [await p]: a rejection is thrown at the await. *)
Definition await {S A} (p : promise A) : M S A :=
  match p with
  | Resolved a => mret a
  | Rejected e => throw e
  end.

(** An [async] method: the promise its body returns, or a rejection with
    the exception that escaped the body.  A promise that is returned
    without [await] passes through an enclosing [try] untouched. *)
Definition async {S A} (body : M S (promise A)) (s : S) : promise A * S :=
  match body s with
  | (Ok p, s') => (p, s')
  | (Throw e, s') => (Rejected e, s')
  end.

(** ** bn.js

    Values of the library's [BN] class are unbounded integers, modelled by
    [Z].  The constructor dispatches on the JavaScript type of its first
    argument: for a JavaScript number ([_initNumber]) the radix argument is
    not consulted and the number must be below 2^53; a [BN] instance is
    returned as it is. *)
Module BN.

Inductive JsVal : Type :=
| JsNumber (n : Z)   (* an integer-valued JavaScript number *)
| JsBN (n : Z).      (* an instance of BN *)

Definition MAX_SAFE : Z := 2 ^ 53.

(** [new BN(number, base)] *)
Definition new (number : JsVal) (base : Z) : outcome Z :=
  match number with
  | JsBN n => Ok n
  | JsNumber n =>
      if Z.abs n <? MAX_SAFE then Ok n else Throw AssertionError
  end.

Definition add (a b : Z) : Z := a + b.
Definition sub (a b : Z) : Z := a - b.
Definition mul (a b : Z) : Z := a * b.

(** [a.div(b)]: [divmod] negates a negative dividend, divides the
    magnitudes and negates the quotient back, so the quotient is rounded
    toward zero; a zero divisor fails the assertion. *)
Definition div (a b : Z) : outcome Z :=
  if b =? 0 then Throw AssertionError else Ok (Z.quot a b).

Definition gt (a b : Z) : bool := b <? a.
Definition lt (a b : Z) : bool := a <? b.

(** [a.lt(v)] where [v] is a JavaScript boolean and not a BN: [cmp] reads
    [v.negative], which is undefined, so a non-negative [a] compares as
    greater; for a negative [a] the word-wise comparison dereferences
    [v.words] and throws. *)
Definition lt_boolean (a : Z) (v : bool) : outcome bool :=
  if a <? 0 then Throw (TypeError "Cannot read property of undefined")
  else Ok false.

(** The value a [JsVal] denotes. *)
Definition toZ (v : JsVal) : Z :=
  match v with JsNumber n | JsBN n => n end.

(** [a.pow(e)], called with a positive exponent only *)
Definition pow (a e : Z) : Z := a ^ e.

(** [a.xor(b)] on numbers that are not negative *)
Definition xor (a b : Z) : Z := Z.lxor a b.

(** [a.toNumber()]: fails the assertion beyond 53 bits *)
Definition toNumber (a : Z) : outcome Z :=
  if Z.abs a <? MAX_SAFE then Ok a else Throw AssertionError.

End BN.

(** ** src/bc/miner.es6 *)
Module Miner.
Import BN.

(** [const MINIMUM_DIFFICULTY = new BN(11801972029393, 16)]: the first
    argument is a numeric literal. *)
Definition MINIMUM_DIFFICULTY : outcome Z := BN.new (JsNumber 11801972029393) 16.

Definition MAX_TIMEOUT_SECONDS : Z := 300.

(** [getDiff] *)
Definition getDiff (currentBlockTime previousBlockTime previousDistance
                    minimalDiffulty newBlockCount : JsVal) : outcome Z :=
  bigMinimalDifficulty ← BN.new minimalDiffulty 16;
  bigPreviousBlockTime ← BN.new previousBlockTime 16;
  bigPreviousDistance ← BN.new previousDistance 16;
  bigCurentBlockTime ← BN.new currentBlockTime 16;
  bigMinus99 ← BN.new (JsNumber (-99)) 16;
  big1 ← BN.new (JsNumber 1) 16;
  big0 ← BN.new (JsNumber 0) 16;
  bigTargetTimeWindow ← BN.new (JsNumber 6) 16;
  let elapsedTime := BN.sub bigCurentBlockTime bigPreviousBlockTime in
  four ← BN.new (JsNumber 4) 16;
  blocks ← BN.new newBlockCount 16;
  let elapsedTimeBonus :=
    BN.add elapsedTime (BN.mul (BN.sub elapsedTime four) blocks) in
  let elapsedTime :=
    if BN.gt elapsedTimeBonus big0 then elapsedTimeBonus else elapsedTime in
  q ← BN.div elapsedTime bigTargetTimeWindow;
  let x := BN.sub big1 q in
  let x := if BN.lt x bigMinus99 then bigMinus99 else x in
  d148 ← BN.new (JsNumber 148) 10;
  y ← BN.div bigPreviousDistance d148;
  let x := BN.mul x y in
  let x := BN.add x bigPreviousDistance in
  if BN.lt x bigMinimalDifficulty then Ok bigMinimalDifficulty else Ok x.

(** The difficulty rule in the words of the specification: the quotient
    of the elapsed time is a floor. *)
Definition get_diff_spec (now prev_ts prev_distance min_diff new_block_count : Z) : Z :=
  let elapsed := now - prev_ts in
  let bonus := elapsed + (elapsed - 4) * new_block_count in
  let elapsed := if 0 <? bonus then bonus else elapsed in
  let x := Z.max (1 - Z.div elapsed 6) (-99) in
  let y := Z.quot prev_distance 148 in
  Z.max (prev_distance + x * y) min_diff.

(** *** Distance

    A JavaScript number is an IEEE 754 binary64 value: the primitive
    floating-point numbers, with their rounding, their signed zeros and
    NaN. *)

(** The number with an integer value (a character code, a literal) *)
Definition number (z : Z) : float :=
  if z <? 0 then PrimFloat.opp (PrimFloat.of_uint63 (Uint63.of_Z (- z)))
  else PrimFloat.of_uint63 (Uint63.of_Z z).

(** [Math.floor(x)]: a number with a non-negative binary exponent is an
    integer already; otherwise the mantissa is divided, rounding down.
    Zeros, infinities and NaN are returned as they are. *)
Definition Math_floor (x : float) : float :=
  match Prim2SF x with
  | S754_finite s m e =>
      if 0 <=? e then x
      else number ((if s then Z.neg m else Z.pos m) / 2 ^ (- e))
  | _ => x
  end.

(** [split]: the character codes of a string *)
Definition split (t : string) : list Z :=
  map (fun an => Z.of_nat (Ascii.nat_of_ascii an)) (String.list_ascii_of_string t).

(** ramda's [splitEvery n]: consecutive slices of length [n] *)
Fixpoint splitEvery_slices {A} (slices n : nat) (l : list A) : list (list A) :=
  match slices, l with
  | O, _ | _, [] => []
  | S k, _ => take n l :: splitEvery_slices k n (drop n l)
  end.

Definition splitEvery {A} (n : nat) (l : list A) : list (list A) :=
  splitEvery_slices (length l) n l.

(** compute-dot, on arrays of one length:
    [for (i = 0; i < len; i++) sum += x[i] * y[i]], from [sum = 0] *)
Definition dot (x y : list Z) : float :=
  foldl (fun sum '(xi, yi) => PrimFloat.add sum (PrimFloat.mul (number xi) (number yi)))
        (number 0) (zip x y).

(** compute-l2norm: the scaled sum of squares, [t * Math.sqrt(s)] after

    [abs = (val < 0) ? -val : val;
     if (abs > 0) {
       if (abs > t) { r = t / val; s = 1 + s*r*r; t = abs }
       else { r = val / t; s = s + r*r } }]

    for each [val], from [t = 0] and [s = 1] *)
Definition l2norm_step (ts : float * float) (val : float) : float * float :=
  let '(t, s) := ts in
  let abs := if PrimFloat.ltb val (number 0) then PrimFloat.opp val else val in
  if PrimFloat.ltb (number 0) abs then
    if PrimFloat.ltb t abs then
      let r := PrimFloat.div t val in
      (abs, PrimFloat.add (number 1) (PrimFloat.mul (PrimFloat.mul s r) r))
    else
      let r := PrimFloat.div val t in
      (t, PrimFloat.add s (PrimFloat.mul r r))
  else (t, s).

Definition l2norm (arr : list Z) : float :=
  let '(t, s) := foldl l2norm_step (number 0, number 1) (number <$> arr) in
  PrimFloat.mul t (PrimFloat.sqrt s).

(** compute-cosine-similarity: [similarity(x, y)] throws on arrays of
    different lengths, is [null] on empty arrays, and is [a / (b * c)]
    otherwise, with [a = dot(x, y)], [b = l2norm(x)], [c = l2norm(y)] *)
Definition similarity (x y : list Z) : outcome (option float) :=
  if negb (Nat.eqb (length x) (length y)) then
    Throw (Error
      "cosine-similarity()::invalid input argument. Input arrays must have the same length.")
  else if Nat.eqb (length x) 0 then Ok None
  else
    let a := dot x y in
    let b := l2norm x in
    let c := l2norm y in
    Ok (Some (PrimFloat.div a (PrimFloat.mul b c))).

(** [dist]: [s !== null ? 1 - s : s] *)
Definition dist (x y : list Z) : outcome (option float) :=
  s ← similarity x y;
  Ok (match s with
      | Some s => Some (PrimFloat.sub (number 1) s)
      | None => None
      end).

(** [all + d], where [null] counts as 0 *)
Definition js_add (all : float) (d : option float) : float :=
  match d with
  | Some d => PrimFloat.add all d
  | None => PrimFloat.add all (number 0)
  end.

(** [distance] *)
Definition distance (a b : string) : outcome float :=
  let aChunks := reverse (splitEvery 32 (split a)) in
  let bChunks := splitEvery 32 (split b) in
  let chunks := zip aChunks bChunks in
  value ← foldl (fun all '(a, b) =>
                   all ← all; d ← dist b a; Ok (js_add all d))
                (Ok (number 0)) chunks;
  Ok (Math_floor (PrimFloat.mul value (number 1000000000000000))).

(** *** The mining loop

    What one pass of the loop reads from its environment: the clock at
    the deadline test, the clock in seconds, the nonce drawn, the
    distance found for that nonce, and the clock when the result object
    is built. *)
Record tick : Type := {
  tk_now : Z;
  tk_nowSeconds : Z;
  tk_nonce : string;
  tk_result : Z;
  tk_now_done : Z
}.

Record solution : Type := {
  sol_distance : Z;
  sol_nonce : string;
  sol_timestamp : Z;
  sol_difficulty : JsVal;
  sol_iterations : Z;
  sol_timeDiff : Z
}.

Inductive mined : Type :=
| Solved (res : solution)      (* [return res] *)
| TimedOut (iterations : Z)    (* [throw Error('Mining took more than 30s ...')] *)
| Crashed (e : exn)            (* an exception of the loop body *)
| Running.                     (* the environment was cut short *)

(** The difficulty used by pass [i]: recomputed when the second has
    advanced and a calculator was given. *)
Definition refresh (difficultyCalculator : option (Z -> JsVal))
           (now : Z) (st : Z * JsVal) : Z * JsVal :=
  let '(currentLoopTimestamp, difficulty) := st in
  match difficultyCalculator with
  | Some calc =>
      if currentLoopTimestamp <? now then (now, calc now)
      else (currentLoopTimestamp, difficulty)
  | None => (currentLoopTimestamp, difficulty)
  end.

Fixpoint mine_loop (env : list tick) (tsStart maxCalculationEnd : Z)
         (difficultyCalculator : option (Z -> JsVal))
         (currentLoopTimestamp : Z) (difficulty : JsVal) (iterations : Z) : mined :=
  match env with
  | [] => Running
  | tk :: env' =>
      let iterations := iterations + 1 in
      if maxCalculationEnd <? tk_now tk then TimedOut iterations
      else
        let now := tk_nowSeconds tk in
        let '(currentLoopTimestamp, difficulty) :=
          refresh difficultyCalculator now (currentLoopTimestamp, difficulty) in
        let result := tk_result tk in
        match BN.new (JsNumber result) 16, BN.new difficulty 16 with
        | Ok r, Ok d =>
            if BN.gt r d then
              Solved {| sol_distance := result;
                        sol_nonce := tk_nonce tk;
                        sol_timestamp := currentLoopTimestamp;
                        sol_difficulty := difficulty;
                        sol_iterations := iterations;
                        sol_timeDiff := tk_now_done tk - tsStart |}
            else mine_loop env' tsStart maxCalculationEnd difficultyCalculator
                           currentLoopTimestamp difficulty iterations
        | Throw e, _ | _, Throw e => Crashed e
        end
  end.

(** [mine]; [tsStart] is the clock read on entry *)
Definition mine (tsStart : Z) (env : list tick) (currentTimestamp : Z)
           (threshold : JsVal) (difficultyCalculator : option (Z -> JsVal)) : mined :=
  let maxCalculationEnd := tsStart + MAX_TIMEOUT_SECONDS * 1000 in
  mine_loop env tsStart maxCalculationEnd difficultyCalculator
            currentTimestamp threshold 0.

(** The loop variables after the refresh of pass [i] (counted from 0),
    read off the clock samples alone. *)
Fixpoint in_effect (difficultyCalculator : option (Z -> JsVal))
         (st : Z * JsVal) (env : list tick) (i : nat) : Z * JsVal :=
  match env with
  | [] => st
  | tk :: env' =>
      let st' := refresh difficultyCalculator (tk_nowSeconds tk) st in
      match i with
      | O => st'
      | S j => in_effect difficultyCalculator st' env' j
      end
  end.

(** *** More of the difficulty functions *)

(** [getExpFactorDiff] *)
Definition getExpFactorDiff (calculatedDifficulty : Z) (parentBlockHeight : JsVal)
  : outcome Z :=
  big1 ← BN.new (JsNumber 1) 16;
  big2 ← BN.new (JsNumber 2) 16;
  expDiffPeriod ← BN.new (JsNumber 66000000) 16;
  height ← BN.new parentBlockHeight 10;
  let periodCount := BN.add height big1 in
  periodCount ← BN.div periodCount expDiffPeriod;
  if BN.gt periodCount big2 then
    let y := BN.sub periodCount big2 in
    let y := BN.pow big2 y in
    Ok (BN.add calculatedDifficulty y)
  else Ok calculatedDifficulty.

(** [getParentShareDiff] *)
Definition getParentShareDiff (parentDifficulty childChainCount : JsVal) : outcome Z :=
  d ← BN.new parentDifficulty 16;
  n ← BN.new childChainCount 16;
  BN.div d n.

(** [getMinimumDifficulty] *)
Definition getMinimumDifficulty (childChainCount : JsVal) : outcome Z :=
  m ← MINIMUM_DIFFICULTY;
  n ← BN.new childChainCount 16;
  BN.div m n.

(** [getNewPreExpDifficulty]: [getDiff] with the timestamp and the distance
    of the last block and with [MINIMUM_DIFFICULTY], which is a BN. *)
Definition getNewPreExpDifficulty (currentTimestamp : JsVal)
           (lastPreviousBlock_getTimestamp lastPreviousBlock_getDistance : JsVal)
           (newBlockCount : JsVal) : outcome Z :=
  m ← MINIMUM_DIFFICULTY;
  getDiff currentTimestamp lastPreviousBlock_getTimestamp
          lastPreviousBlock_getDistance (JsBN m) newBlockCount.

(** [difference(first, second)] of ramda: the elements of [first] that are
    not in [second], each once, in the order of their first occurrence.
    [toFilterOut] is the set the library keeps. *)
Fixpoint difference_from (toFilterOut : list string) (first : list string)
  : list string :=
  match first with
  | [] => []
  | x :: first' =>
      if bool_decide (x ∈ toFilterOut) then difference_from toFilterOut first'
      else x :: difference_from (x :: toFilterOut) first'
  end.

Definition difference (first second : list string) : list string :=
  difference_from second first.

(** [headersToHashes]: the hashes of all lists of a header map, in the
    order of its keys *)
Definition headersToHashes (headers : list (string * list string)) : list string :=
  foldl (fun acc curr => acc ++ snd curr) [] headers.

(** [getNewBlockCount] *)
Definition getNewBlockCount (previousBlockHeaders currentBlockHeaders
                             : list (string * list string)) : nat :=
  let previousHashes := headersToHashes previousBlockHeaders in
  let currentHashes := headersToHashes currentBlockHeaders in
  length (difference currentHashes previousHashes).

(** *** Merkle root and work

    The hash function of utils/crypto and the reading of a hexadecimal
    string as an integer ([new BN(Buffer.from(s, 'hex'))]) are not part of
    the sources: they are parameters. *)
Section Hashing.
Variable blake2bl : string -> string.
Variable hexToBN : string -> Z.

(** [createMerkleRoot(list, prev)]; [None] is [undefined] *)
Fixpoint createMerkleRoot (list : list string) (prev : option string)
  : option string :=
  match list with
  | [] => prev
  | item :: list' =>
      let prev :=
        match prev with
        | Some p => blake2bl (p +:+ item)
        | None => blake2bl item
        end in
      createMerkleRoot list' (Some prev)
  end.

(** A child header, as far as the work reads it. *)
Record BlockchainHeader : Type := {
  header_getHash : string;
  header_getMerkleRoot : string
}.

(** [blockHash]: [blake2bl(hash + merkleRoot)] *)
Definition blockHash (block : BlockchainHeader) : string :=
  blake2bl (header_getHash block +:+ header_getMerkleRoot block).

Definition getChildrenBlocksHashes (blocks : list BlockchainHeader) : list string :=
  map blockHash blocks.

(** [blockchainMapToList]: the lists of the map, one after the other in
    the order of its keys *)
Definition blockchainMapToList (headersMap : list (string * list BlockchainHeader))
  : list BlockchainHeader :=
  foldl (fun acc curr => acc ++ curr) [] (map snd headersMap).

(** [getChildrenRootHash]: the exclusive or of the hashes, from 0 *)
Definition getChildrenRootHash (hashes : list string) : Z :=
  foldl (fun all blockHash => BN.xor all (hexToBN blockHash)) 0 hashes.

(** [prepareWork] *)
Definition prepareWork (previousBlockHash : string)
           (childrenCurrentBlocks : list (string * list BlockchainHeader)) : string :=
  let newChainRoot :=
    getChildrenRootHash
      (getChildrenBlocksHashes (blockchainMapToList childrenCurrentBlocks)) in
  blake2bl (pretty (BN.xor newChainRoot (hexToBN previousBlockHash))).

End Hashing.

End Miner.


(** ** src/bc/multiverse.es6 *)
Module Multiverse.

Record t : Type := {
  _blocks : gmap Z (list BcBlock);
  _selective : bool
}.

(** [new Multiverse(selective = false)] *)
Definition create (selective : bool) : t :=
  {| _blocks := ∅; _selective := selective |}.

Definition getAllBlockchainHashes (block : BcBlock) : list string :=
  foldl (fun acc kv => acc ++ snd kv) [] (getBlockchainHeaders block).

(** [row.sort((a, b) => ...)]: descending total distance; blocks that
    compare equal keep their order. *)
Fixpoint sort_insert (a : BcBlock) (row : list BcBlock) : list BcBlock :=
  match row with
  | [] => [a]
  | b :: row' =>
      if BN.gt (getTotalDistance b) (getTotalDistance a)
      then b :: sort_insert a row'
      else a :: b :: row'
  end.

Definition sort (row : list BcBlock) : list BcBlock :=
  foldr sort_insert [] row.

(** [self._blocks[height].push(block)], then the sort of a row of more
    than one block *)
Definition push (self : t) (height : Z) (block : BcBlock) : t :=
  let row := default [] (_blocks self !! height) ++ [block] in
  let row := if (1 <? length row)%nat then sort row else row in
  {| _blocks := <[height := row]> (_blocks self);
     _selective := _selective self |}.

(** [row.reduce((all, item) => { if (p(item)) all = true; return all }, false)] *)
Definition reduce_any (p : BcBlock -> bool) (row : list BcBlock) : bool :=
  foldl (fun all item => if p item then true else all) false row.

Definition hasParent (self : t) (block : BcBlock) : outcome bool :=
  match _blocks self !! (getHeight block - 1) with
  | None => Ok false
  | Some row =>
      let hasParentHash :=
        reduce_any (fun item =>
          bool_decide (getHash item = getPreviousHash block)) row in
      let hasParentHeight :=
        reduce_any (fun item =>
          bool_decide (getHeight item = getHeight block - 1)) row in
      match row with
      | [] => Throw (TypeError "Cannot read property 'getBlockchainHeaders' of undefined")
      | first :: _ =>
          let uniqueParentHeaders :=
            negb (bool_decide (getAllBlockchainHashes first
                               = getAllBlockchainHashes block)) in
          Ok (hasParentHash && hasParentHeight && uniqueParentHeaders)
      end
  end.

Definition hasChild (self : t) (block : BcBlock) : outcome bool :=
  match _blocks self !! (getHeight block + 1) with
  | None => Ok false
  | Some row =>
      let hasChildHash :=
        reduce_any (fun item =>
          bool_decide (getPreviousHash item = getHash block)
          && bool_decide (getHeight item - 1 = getHeight block)) row in
      let hasChildHeight :=
        reduce_any (fun item =>
          bool_decide (getHeight item - 1 = getHeight block)) row in
      match row with
      | [] => Throw (TypeError "Cannot read property 'getBlockchainHeaders' of undefined")
      | first :: _ =>
          let uniqueChildHeaders :=
            negb (bool_decide (getAllBlockchainHashes first
                               = getAllBlockchainHashes block)) in
          Ok (hasChildHash && hasChildHeight && uniqueChildHeaders)
      end
  end.

Definition alreadyInMultiverse (self : t) (block : BcBlock) : bool :=
  match _blocks self !! getHeight block with
  | None => false
  | Some row =>
      reduce_any (fun item => bool_decide (getHash item = getHash block)) row
  end.

(** [const keyCount = Object.keys(this._blocks).length] *)
Definition keyCount (self : t) : nat := size (_blocks self).

(** The first [if]: fewer than 7 heights in a multiverse that is not
    selective, or no height at all, switch [syncing] and [force] on. *)
Definition syncing (self : t) : bool :=
  if (keyCount self <? 7)%nat && negb (_selective self) then true
  else if (keyCount self <? 1)%nat then true
  else false.

(** [addBlock(block, force = false)]: the result and the multiverse
    after the call *)
Definition addBlock (self : t) (block : BcBlock) (force : bool)
  : outcome (bool * t) :=
  let height := getHeight block in
  let syncing := syncing self in
  let force := if syncing then true else force in
  hasParent ← hasParent self block;
  hasChild ← hasChild self block;
  let alreadyInMultiverse := alreadyInMultiverse self block in
  if hasParent || hasChild then
    if negb alreadyInMultiverse then Ok (true, push self height block)
    else Ok (false, self)
  else if force || syncing then Ok (true, push self height block)
  else Ok (false, self).

(** Rows are created by [push], so a populated height never has an empty
    row. *)
Definition rows_nonempty (self : t) : Prop :=
  map_Forall (fun _ row => row ≠ @nil BcBlock) (_blocks self).

(** A row in the order [sort] gives it: total distance descending. *)
Definition row_sorted (row : list BcBlock) : Prop :=
  StronglySorted (fun a b => getTotalDistance b ≤ getTotalDistance a) row.

Definition rows_sorted (self : t) : Prop :=
  map_Forall (fun _ row => row_sorted row) (_blocks self).

(** [purge] *)
Definition purge (self : t) : t :=
  {| _blocks := ∅; _selective := _selective self |}.

End Multiverse.

(** ** The key/value store *)
Module Persistence.

Abbreviation db := (gmap string BcBlock).

(** ['bc.block.' + height] *)
Definition block_key (height : Z) : string := "bc.block." +:+ pretty height.

(** Modelled from the spec: the persistence module is not part of the
    sources.  It is a store from string keys to values with single-key
    gets and puts; a get of a missing key is an error. *)
Definition get (store : db) (key : string) : promise BcBlock :=
  match store !! key with
  | Some b => Resolved b
  | None => Rejected (Error "key not found")
  end.

(** Modelled from the spec: a put of a single key; it replaces what the
    key held. *)
Definition put (store : db) (key : string) (v : BcBlock) : promise value * db :=
  (Resolved VTrue, <[key := v]> store).

(** Modelled from the spec: the deletion of a single key; [rejects] tells
    on which keys the store fails it. *)
Definition del (rejects : string -> bool) (store : db) (key : string)
  : promise value * db :=
  if rejects key then (Rejected (Error "delete failed"), store)
  else (Resolved VTrue, delete key store).

End Persistence.

(** ** src/bc/blockpool.es6 *)
Module BlockPool.
Import Persistence.

(** [this._checkpoint] is [false], [undefined] or a block. *)
Inductive checkpoint : Type :=
| CpFalse
| CpUndefined
| CpBlock (b : BcBlock).

Record t : Type := {
  _cache : list BcBlock;
  _checkpoint : checkpoint;
  _persistence : db;
  _genesisBlock : BcBlock;
  published : list string   (* topics handed to [pubsub.publish] *)
}.

(** [new BlockPool(persistence, pubsub)] *)
Definition create (persistence : db) (genesis : BcBlock) : t :=
  {| _cache := []; _checkpoint := CpFalse; _persistence := persistence;
     _genesisBlock := genesis; published := [] |}.

Definition set_cache (c : list BcBlock) (s : t) : t :=
  {| _cache := c; _checkpoint := _checkpoint s; _persistence := _persistence s;
     _genesisBlock := _genesisBlock s; published := published s |}.
Definition set_checkpoint (c : checkpoint) (s : t) : t :=
  {| _cache := _cache s; _checkpoint := c; _persistence := _persistence s;
     _genesisBlock := _genesisBlock s; published := published s |}.
Definition set_persistence (d : db) (s : t) : t :=
  {| _cache := _cache s; _checkpoint := _checkpoint s; _persistence := d;
     _genesisBlock := _genesisBlock s; published := published s |}.
Definition publish (topic : string) (s : t) : t :=
  {| _cache := _cache s; _checkpoint := _checkpoint s; _persistence := _persistence s;
     _genesisBlock := _genesisBlock s; published := published s ++ [topic] |}.

(** Property lookup on an instance: the fields the constructor assigns,
    the getters and methods of the class; every other name is
    [undefined]. *)
Inductive property : Type :=
| PUndefined
| PCache (c : list BcBlock)
| PCheckpoint (c : checkpoint)
| PStore (d : db)
| PBlock (b : BcBlock)
| POther.

Definition other_members : list string :=
  ["_syncEnabled"; "_maximumHeight"; "_pubsub"; "pubsub";
   "_eventResyncFailed"; "_eventCheckpointReached"; "_hasParent";
   "updateCheckpoint"; "addBlock"; "purgeFrom"; "purge"].

Definition prop (self : t) (name : string) : property :=
  if bool_decide (name = "_cache") then PCache (_cache self)
  else if bool_decide (name = "_checkpoint") || bool_decide (name = "checkpoint")
  then PCheckpoint (_checkpoint self)
  else if bool_decide (name = "_persistence") then PStore (_persistence self)
  else if bool_decide (name = "_genesisBlock") then PBlock (_genesisBlock self)
  else if bool_decide (name ∈ other_members) then POther
  else PUndefined.

(** [self.<name>.getHash()] *)
Definition call_getHash (name : string) : M t string := fun self =>
  match prop self name with
  | PBlock b => (Ok (getHash b), self)
  | PCheckpoint (CpBlock b) => (Ok (getHash b), self)
  | PUndefined =>
      (Throw (TypeError "Cannot read property 'getHash' of undefined"), self)
  | _ => (Throw (TypeError "getHash is not a function"), self)
  end.

(** [self._checkpoint.getHeight()] *)
Definition checkpoint_getHeight : M t Z := fun self =>
  match _checkpoint self with
  | CpBlock b => (Ok (getHeight b), self)
  | CpFalse => (Throw (TypeError "getHeight is not a function"), self)
  | CpUndefined =>
      (Throw (TypeError "Cannot read property 'getHeight' of undefined"), self)
  end.

(** [self.<name>.put(key, v)]: the promise of the store's [put] *)
Definition call_put (name key : string) (v : BcBlock) : M t (promise value) :=
  fun self =>
    match prop self name with
    | PStore d =>
        let '(p, d') := Persistence.put d key v in (Ok p, set_persistence d' self)
    | PUndefined =>
        (Throw (TypeError "Cannot read property 'put' of undefined"), self)
    | _ => (Throw (TypeError "put is not a function"), self)
    end.

(** [self._persistence.get(key)] *)
Definition store_get (key : string) : M t (promise BcBlock) :=
  gets (fun self => Persistence.get (_persistence self) key).

Definition is_undefined (c : checkpoint) : bool :=
  match c with CpUndefined => true | _ => false end.
Definition is_false (c : checkpoint) : bool :=
  match c with CpFalse => true | _ => false end.

(** [cache.sort((a, b) => ...)]: ascending height *)
Fixpoint height_insert (a : BcBlock) (row : list BcBlock) : list BcBlock :=
  match row with
  | [] => [a]
  | b :: row' =>
      if getHeight b <? getHeight a then b :: height_insert a row'
      else a :: b :: row'
  end.

Definition sort_by_height (row : list BcBlock) : list BcBlock :=
  foldr height_insert [] row.

Section Methods.
(** [earliest.previousHash()]: the generated message class is not part
    of the sources, so the result of this call is left open. *)
Variable earliest_previousHash : BcBlock -> outcome string.
(** The keys on which the store fails a [del]. *)
Variable del_rejects : string -> bool.

Definition store_del (key : string) : M t (promise value) := fun self =>
  let '(p, d') := Persistence.del del_rejects (_persistence self) key in
  (Ok p, set_persistence d' self).

Definition _eventResyncFailed : M t unit :=
  modify (publish "update.resync.failed").

Definition _eventCheckpointReached (lastBlock : BcBlock) : M t unit :=
  _ ← modify (publish "state.checkpoint.end");
  modify (set_checkpoint CpFalse).

(** [return self.method(...)] from an async method: the promise of the
    nested call is returned as it is. *)
Definition nested (body : M t (promise value)) : M t (promise value) :=
  fun self => let '(r, self') := async body self in (Ok r, self').

(** The body of [addBlock]; [depth] bounds the nested calls. *)
Fixpoint addBlock_body (depth : nat) (block : BcBlock) : M t (promise value) :=
  let hash := getHash block in
  let previousHash := getPreviousHash block in
  let height := getHeight block in
  cp ← gets _checkpoint;
  if is_undefined cp && is_false cp then
    mret (Rejected (Error "no checkpoint set for blockpool"))
  else
    g ← call_getHash "genesisBlock";
    if bool_decide (hash = g) then mret (Resolved VTrue)
    else
      try_catch
        (p ← store_get "bc.block.earliest";
         earliest ← await p;
         ph ← lift (earliest_previousHash earliest);
         genesisHash ← call_getHash "_genesisBlock";
         if bool_decide (hash = ph) && bool_decide (previousHash = genesisHash) then
           _ ← _eventCheckpointReached block;
           d ← store_del "bc.block.earliest";
           r ← await d;
           mret (Resolved r)
         else
           ph' ← lift (earliest_previousHash earliest);
           if bool_decide (hash = ph') && bool_decide (height = 2)
              && negb (bool_decide (previousHash = genesisHash)) then
             _ ← _eventResyncFailed;
             d ← store_del "bc.block.earliest";
             r ← await d;
             mret (Resolved r)
           else if bool_decide (getHash earliest = hash) then mret (Resolved VTrue)
           else if getHeight earliest <? height then mret (Resolved VTrue)
           else
             '(toWrite, writeFromCache) ←
               (if bool_decide (getPreviousHash earliest = hash) then
                  mret (Some block, false)
                else if height <? getHeight earliest then
                  _ ← modify (fun self =>
                        set_cache
                          (sort_by_height
                             (filter (fun b => getHeight b < getHeight earliest)
                                     (_cache self ++ [block]))) self);
                  cache ← gets _cache;
                  let candidates :=
                    filter (fun b => getPreviousHash earliest = getHash b) cache in
                  mret (last candidates, bool_decide (candidates ≠ []))
                else mret (None, false));
             match toWrite with
             | Some committedBlock =>
                 w ← call_put "_persistance"
                       (block_key (getHeight committedBlock)) committedBlock;
                 _ ← await w;
                 cache ← gets _cache;
                 match writeFromCache, last cache, depth with
                 | true, Some next, S depth' =>
                     w ← call_put "_persistance" "bc.block.earliest" committedBlock;
                     _ ← await w;
                     _ ← modify (set_cache (removelast cache));
                     nested (addBlock_body depth' next)
                 | true, Some _, O => throw RangeError
                 | _, _, _ =>
                     call_put "_persistance" "bc.block.earliest" committedBlock
                 end
             | None => mret (Resolved VTrue)
             end)
        (fun err =>
           g ← call_getHash "genesisBlock";
           inside ←
             (if negb (bool_decide (hash = g)) && (1 <? height) then
                top ← checkpoint_getHeight;
                mret (height <? top)
              else mret false);
           if inside : bool then
             w ← call_put "_persistance" (block_key height) block;
             _ ← await w;
             call_put "_persistance" "bc.block.earliest" block
           else if height <? 2 then
             mret (Rejected (Error "invalid block claiming to be genesis"))
           else
             _ ← modify (fun self => set_cache (_cache self ++ [block]) self);
             mret (Resolved VTrue)).

(** [addBlock] *)
Definition addBlock (self : t) (block : BcBlock) : promise value * t :=
  async (addBlock_body (S (length (_cache self))) block) self.

(** [purgeFrom]: the recursion is on [start], which decreases until
    one of the first two tests stops it. *)
Equations? purgeFrom (start end_ : Z) (self : t) : promise value * t
  by wf (Z.to_nat start) lt :=
  purgeFrom start end_ self with decide (end_ < 1 ∨ start ≤ 1) => {
    | left _ => (Rejected (Error "cannot purge below height 2"), self)
    | right _ with decide (start = end_) => {
      | left _ => (Resolved VTrue, self)
      | right _ with Persistence.del del_rejects (_persistence self) (block_key start) => {
        | (Resolved _, d) => purgeFrom (start - 1) end_ (set_persistence d self)
        | (Rejected err, d) => purgeFrom (start - 1) end_ (set_persistence d self) } } }.
Proof. all: lia. Qed.

(** The store after [n] deletions from [start] downwards, each of which
    the store may refuse. *)
Fixpoint purge_keys (store : db) (start : Z) (n : nat) : db :=
  match n with
  | O => store
  | S k => purge_keys (snd (Persistence.del del_rejects store (block_key start)))
                      (start - 1) k
  end.

(** [purge] *)
Definition purge (checkpoint : checkpoint) : M t (promise value) :=
  let call_purgeFrom (height : Z) : M t (promise value) :=
    fun self => let '(r, self') := purgeFrom height 1 self in (Ok r, self') in
  match checkpoint with
  | CpBlock cp =>
      try_catch
        (p ← store_get "bc.block.latest";
         latest ← await p;
         let latestHeight := getHeight latest in
         let height := getHeight cp - 1 in
         if height <? 2 then
           mret (Rejected (Error "checkpoint set to genesis height"))
         else if latestHeight <? height then
           mret (Rejected (Error "cannot purge after latest block"))
         else
           _ ← modify (set_checkpoint checkpoint);
           call_purgeFrom height)
        (fun err => mret (Rejected err))
  | _ =>
      p ← store_get "bc.block.latest";
      latest ← await p;
      let height := getHeight latest - 1 in
      if height <? 2 then
        mret (Rejected (Error "checkpoint set to genesis height"))
      else call_purgeFrom height
  end.

End Methods.
End BlockPool.

(** ** The engine coordinator *)
Module Engine.
Import Persistence.

(** A counter of [_collectedBlocks]: a number, or NaN after
    [undefined + 1]. *)
Inductive count : Type :=
| Count (n : Z)
| CountNaN.

(** [_workerProcess] *)
Inductive worker : Type :=
| WUndefined
| WNull
| WFalse
| WProcess (pid : Z).

Record t : Type := {
  _knownRovers : list string;
  _collectedBlocks : gmap string count;
  _canMine : bool;
  _peerIsSyncing : bool;
  _peerIsResyncing : bool;
  _persistence : db;
  _rawBlock : list string;
  _workerProcess : worker;
  _unfinishedBlock : option BcBlock;
  warnings : list string
}.

(** The constructor: every known rover starts at 0 and [_canMine] is
    false. *)
Definition create (rovers : list string) (persistence : db) : t :=
  {| _knownRovers := rovers;
     _collectedBlocks :=
       foldl (fun collected roverName => <[roverName := Count 0]> collected) ∅ rovers;
     _canMine := false;
     _peerIsSyncing := false;
     _peerIsResyncing := false;
     _persistence := persistence;
     _rawBlock := [];
     _workerProcess := WUndefined;
     _unfinishedBlock := None;
     warnings := [] |}.

Definition set_collectedBlocks (c : gmap string count) (s : t) : t :=
  {| _knownRovers := _knownRovers s; _collectedBlocks := c;
     _canMine := _canMine s; _peerIsSyncing := _peerIsSyncing s;
     _peerIsResyncing := _peerIsResyncing s; _persistence := _persistence s;
     _rawBlock := _rawBlock s; _workerProcess := _workerProcess s;
     _unfinishedBlock := _unfinishedBlock s; warnings := warnings s |}.
Definition set_canMine (b : bool) (s : t) : t :=
  {| _knownRovers := _knownRovers s; _collectedBlocks := _collectedBlocks s;
     _canMine := b; _peerIsSyncing := _peerIsSyncing s;
     _peerIsResyncing := _peerIsResyncing s; _persistence := _persistence s;
     _rawBlock := _rawBlock s; _workerProcess := _workerProcess s;
     _unfinishedBlock := _unfinishedBlock s; warnings := warnings s |}.
Definition set_peerIsSyncing (b : bool) (s : t) : t :=
  {| _knownRovers := _knownRovers s; _collectedBlocks := _collectedBlocks s;
     _canMine := _canMine s; _peerIsSyncing := b;
     _peerIsResyncing := _peerIsResyncing s; _persistence := _persistence s;
     _rawBlock := _rawBlock s; _workerProcess := _workerProcess s;
     _unfinishedBlock := _unfinishedBlock s; warnings := warnings s |}.
Definition set_peerIsResyncing (b : bool) (s : t) : t :=
  {| _knownRovers := _knownRovers s; _collectedBlocks := _collectedBlocks s;
     _canMine := _canMine s; _peerIsSyncing := _peerIsSyncing s;
     _peerIsResyncing := b; _persistence := _persistence s;
     _rawBlock := _rawBlock s; _workerProcess := _workerProcess s;
     _unfinishedBlock := _unfinishedBlock s; warnings := warnings s |}.
Definition set_persistence (d : db) (s : t) : t :=
  {| _knownRovers := _knownRovers s; _collectedBlocks := _collectedBlocks s;
     _canMine := _canMine s; _peerIsSyncing := _peerIsSyncing s;
     _peerIsResyncing := _peerIsResyncing s; _persistence := d;
     _rawBlock := _rawBlock s; _workerProcess := _workerProcess s;
     _unfinishedBlock := _unfinishedBlock s; warnings := warnings s |}.
Definition set_rawBlock (r : list string) (s : t) : t :=
  {| _knownRovers := _knownRovers s; _collectedBlocks := _collectedBlocks s;
     _canMine := _canMine s; _peerIsSyncing := _peerIsSyncing s;
     _peerIsResyncing := _peerIsResyncing s; _persistence := _persistence s;
     _rawBlock := r; _workerProcess := _workerProcess s;
     _unfinishedBlock := _unfinishedBlock s; warnings := warnings s |}.
Definition set_workerProcess (w : worker) (s : t) : t :=
  {| _knownRovers := _knownRovers s; _collectedBlocks := _collectedBlocks s;
     _canMine := _canMine s; _peerIsSyncing := _peerIsSyncing s;
     _peerIsResyncing := _peerIsResyncing s; _persistence := _persistence s;
     _rawBlock := _rawBlock s; _workerProcess := w;
     _unfinishedBlock := _unfinishedBlock s; warnings := warnings s |}.
Definition set_unfinishedBlock (u : option BcBlock) (s : t) : t :=
  {| _knownRovers := _knownRovers s; _collectedBlocks := _collectedBlocks s;
     _canMine := _canMine s; _peerIsSyncing := _peerIsSyncing s;
     _peerIsResyncing := _peerIsResyncing s; _persistence := _persistence s;
     _rawBlock := _rawBlock s; _workerProcess := _workerProcess s;
     _unfinishedBlock := u; warnings := warnings s |}.
Definition warn (line : string) (s : t) : t :=
  {| _knownRovers := _knownRovers s; _collectedBlocks := _collectedBlocks s;
     _canMine := _canMine s; _peerIsSyncing := _peerIsSyncing s;
     _peerIsResyncing := _peerIsResyncing s; _persistence := _persistence s;
     _rawBlock := _rawBlock s; _workerProcess := _workerProcess s;
     _unfinishedBlock := _unfinishedBlock s; warnings := warnings s ++ [line] |}.

(** *** storeHeight *)

(** The pub/sub payload [{ data, force }]; [force] may be absent. *)
Record message : Type := {
  data : BcBlock;
  force : option bool
}.

Definition store_get (key : string) : M t (promise BcBlock) :=
  gets (fun self => Persistence.get (_persistence self) key).

Definition store_put (key : string) (v : BcBlock) : M t (promise value) :=
  fun self =>
    let '(p, d) := Persistence.put (_persistence self) key v in
    (Ok p, set_persistence d self).

Definition describe (block : BcBlock) : string :=
  pretty (getHeight block) +:+ " - " +:+ getHash block.

Definition storeHeight_body (msg : message) : M t (promise value) :=
  let block := data msg in
  if getHeight block <? 2 then mret (Resolved VUndefined)
  else if bool_decide (force msg = Some true) then
    try_catch
      (p ← store_put (block_key (getHeight block)) block;
       _ ← await p;
       mret (Resolved (VBlock block)))
      (fun err =>
         _ ← modify (warn ("unable to store block " +:+ describe block));
         mret (Rejected err))
  else
    try_catch
      (p ← store_get (block_key (getHeight block - 1));
       prev ← await p;
       matches ←
         (if bool_decide (getHash prev = getPreviousHash block) then
            (* [new BN(block.getTotalDistance()) === true] is the argument
               of [lt]: an object is never identical to a boolean *)
            let arg := false in
            lift (BN.lt_boolean (getTotalDistance prev) arg)
          else mret false);
       if matches : bool then
         p ← store_put (block_key (getHeight block)) block;
         _ ← await p;
         mret (Resolved VTrue)
       else mret (Rejected (Error "block state did not match")))
      (fun err =>
         p ← store_put (block_key (getHeight block)) block;
         _ ← await p;
         _ ← modify (warn (" stored orphan " +:+ describe block));
         mret (Resolved VTrue)).

Definition storeHeight (msg : message) (self : t) : promise value * t :=
  async (storeHeight_body msg) self.

(** *** collectBlock *)

(** [counter += 1] *)
Definition incr (c : option count) : count :=
  match c with
  | Some (Count n) => Count (n + 1)
  | Some CountNaN | None => CountNaN
  end.

Definition at_least_one (c : count) : Prop :=
  match c with
  | Count n => 1 ≤ n
  | CountNaN => False
  end.

Global Instance at_least_one_dec c : Decision (at_least_one c).
Proof. destruct c; simpl; apply _. Defined.

(** [all(numCollected => numCollected >= 1, values(self._collectedBlocks))] *)
Definition all_collected (collected : gmap string count) : bool :=
  bool_decide (map_Forall (fun _ c => at_least_one c) collected).

(** The first two statements of [collectBlock]: count the tip, then
    raise [_canMine]. *)
Definition count_tip (blockchain : string) (self : t) : t :=
  let collected :=
    <[blockchain := incr (_collectedBlocks self !! blockchain)]>
      (_collectedBlocks self) in
  let self := set_collectedBlocks collected self in
  if negb (_canMine self) && all_collected (_collectedBlocks self)
  then set_canMine true self
  else self.

(** [equals(new Set(this._knownRovers), new Set(rovers))] *)
Definition same_rovers (self : t) (rovers : list string) : bool :=
  bool_decide (list_to_set (_knownRovers self) =@{gset string} list_to_set rovers).

(** What a call of [startMining] leaves behind: it assigns
    [_unfinishedBlock] and [_workerProcess] only; the values depend on
    the store, the clock and the forked process. *)
Record mining : Type := {
  mining_worker : worker;
  mining_unfinished : option BcBlock
}.

Definition startMining (m : mining) (self : t) : t :=
  set_workerProcess (mining_worker m)
    (set_unfinishedBlock (mining_unfinished m) self).

(** [collectBlock(rovers, block)]; [true] when mining was started *)
Definition collectBlock (rovers : list string) (blockchain : string)
           (m : mining) (self : t) : bool * t :=
  let self := count_tip blockchain self in
  if _canMine self && negb (_peerIsSyncing self) && same_rovers self rovers then
    let self := set_rawBlock (_rawBlock self ++ [blockchain]) self in
    (true, startMining m self)
  else (false, self).

(** *** The other handlers *)

Definition receiveSyncPeriod (peerIsSyncing : bool) (self : t) : t :=
  set_peerIsSyncing peerIsSyncing self.

Definition _cleanUnfinishedBlock (self : t) : t :=
  set_unfinishedBlock None self.

Definition is_process (w : worker) : bool :=
  match w with WProcess _ => true | _ => false end.

Definition stopMining (self : t) : bool * t :=
  if is_process (_workerProcess self) then (true, set_workerProcess WNull self)
  else (false, self).

Definition restartMining (self : t) : t := snd (stopMining self).

Definition _handleWorkerError (self : t) : t :=
  let self := _cleanUnfinishedBlock self in
  if is_process (_workerProcess self) then set_workerProcess WUndefined self
  else self.

Definition _handleWorkerExit (code : option Z) (self : t) : t :=
  let self :=
    match code with
    | Some 0 | None => self
    | Some _ => _cleanUnfinishedBlock self
    end in
  set_workerProcess WUndefined self.

(** The events the engine processes, one at a time. *)
Inductive event : Type :=
| CollectBlock (rovers : list string) (blockchain : string) (m : mining)
| ReceiveSyncPeriod (peerIsSyncing : bool)
| UpdateCheckpointStart        (* 'update.checkpoint.start' *)
| StateResyncFailed            (* 'state.resync.failed' *)
| StateCheckpointEnd           (* 'state.checkpoint.end' *)
| StateBlockHeight (msg : message)   (* 'state.block.height' *)
| StopMining
| RestartMining
| WorkerError
| WorkerExit (code : option Z)
| CleanUnfinishedBlock
(** [updateLatestAndStore], [blockFromPeer] and the worker's solution
    handler assign the store, the worker handle and the unfinished block;
    what they leave there is left open. *)
| Other (persistence : db) (w : worker) (u : option BcBlock).

Definition handle (self : t) (ev : event) : t :=
  match ev with
  | CollectBlock rovers blockchain m => snd (collectBlock rovers blockchain m self)
  | ReceiveSyncPeriod b => receiveSyncPeriod b self
  | UpdateCheckpointStart => set_peerIsResyncing true self
  | StateResyncFailed => set_peerIsResyncing true self
  | StateCheckpointEnd => set_peerIsResyncing false self
  | StateBlockHeight msg => snd (storeHeight msg self)
  | StopMining => snd (stopMining self)
  | RestartMining => restartMining self
  | WorkerError => _handleWorkerError self
  | WorkerExit code => _handleWorkerExit code self
  | CleanUnfinishedBlock => _cleanUnfinishedBlock self
  | Other d w u =>
      set_persistence d (set_workerProcess w (set_unfinishedBlock u self))
  end.

Definition run (self : t) (evs : list event) : t := foldl handle self evs.

(** Tips come from known chains. *)
Definition tips_known (known : list string) (evs : list event) : Prop :=
  Forall (fun ev =>
            match ev with
            | CollectBlock _ blockchain _ => blockchain ∈ known
            | _ => True
            end) evs.

(** Every known chain has been seen at least once. *)
Definition all_known_collected (self : t) : Prop :=
  ∀ c, c ∈ _knownRovers self →
       ∃ n, _collectedBlocks self !! c = Some (Count n) ∧ 1 ≤ n.

(** What holds of the counters after any number of events: they are kept
for the known rovers only, they are numbers from 0 upwards, and as long
as [_canMine] is false some rover is still at 0. *)
Definition counters_sound (known : list string) (self : t) : Prop :=
  _knownRovers self = known
  ∧ (∀ c, c ∈ known ↔ is_Some (_collectedBlocks self !! c))
  ∧ (∀ c v, _collectedBlocks self !! c = Some v → ∃ n, v = Count n ∧ 0 ≤ n)
  ∧ (_canMine self = true
     ∨ ∃ c, c ∈ known ∧ _collectedBlocks self !! c = Some (Count 0)).

(** The fields read by [counters_sound]. *)
Definition same_counters (self self' : t) : Prop :=
  _knownRovers self' = _knownRovers self
  ∧ _collectedBlocks self' = _collectedBlocks self
  ∧ _canMine self' = _canMine self.

(** *** updateLatestAndStore *)

(** The payload of 'update.block.latest': [{ data, force, multiverse,
    purge }], each but [data] possibly absent; [data] may be undefined. *)
Record update_message : Type := {
  u_data : option BcBlock;
  u_force : option bool;
  u_multiverse : option (list BcBlock);
  u_purge : option Z
}.

(** What [logger.warn(err)] writes *)
Definition describe_exn (err : exn) : string :=
  match err with
  | TypeError msg => "TypeError: " +:+ msg
  | AssertionError => "AssertionError"
  | RangeError => "RangeError"
  | Error msg => "Error: " +:+ msg
  end.

(** [while (msg.multiverse.length > 0) { b = msg.multiverse.pop(); await
    put('bc.block.' + b.getHeight(), b) }]: the list is taken from its
    end *)
Definition drain (multiverse : list BcBlock) : M t unit :=
  foldr (fun b rest =>
           _ ← rest;
           p ← store_put (block_key (getHeight b)) b;
           _ ← await p;
           mret tt)
        (mret tt) multiverse.

Section BlockPoolOfTheNode.
(** [self.blockpool.purgeFrom(start, end)]: the block pool belongs to the
    p2p node, which is not part of the sources; what the call settles with
    and what it leaves in the store is a parameter. *)
Variable blockpool_purgeFrom : Z -> Z -> db -> promise value * db.

Definition updateLatestAndStore_body (msg : update_message) : M t (promise value) :=
  let forced := bool_decide (u_force msg = Some true) in
  try_catch
    (p ← store_get "bc.block.latest";
     previousLatest ← await p;
     block ← match u_data msg with
             | Some block => mret block
             | None => throw (TypeError "Cannot read property 'getHeight' of undefined")
             end;
     let persistNewBlock :=
       bool_decide (getHash previousLatest = getPreviousHash block) || forced in
     _ ← (if persistNewBlock && (getTimestamp previousLatest <=? getTimestamp block) then
            p ← store_put "bc.block.latest" block;
            _ ← await p;
            p ← store_put (block_key (getHeight block)) block;
            _ ← await p;
            modify (fun self =>
                      match _workerProcess self with
                      | WUndefined => set_workerProcess WFalse self
                      | _ => self
                      end)
          else
            modify (warn "new purposed latest block does not match the last"));
     match forced, u_multiverse msg, u_purge msg with
     | true, Some multiverse, _ =>
         _ ← drain multiverse;
         mret (Resolved VTrue)
     | true, None, Some purge =>
         fun self =>
           let '(r, d) := blockpool_purgeFrom (getHeight block) purge (_persistence self) in
           (Ok r, set_persistence d self)
     | _, _, _ => mret (Resolved VTrue)
     end)
    (fun err =>
       _ ← modify (warn (describe_exn err));
       _ ← match u_data msg with
           | Some block =>
               p ← store_put "bc.block.latest" block;
               _ ← await p;
               p ← store_put (block_key (getHeight block)) block;
               _ ← await p;
               mret tt
           | None => mret tt
           end;
       mret (Resolved VTrue)).

Definition updateLatestAndStore (msg : update_message) (self : t) : promise value * t :=
  async (updateLatestAndStore_body msg) self.

End BlockPoolOfTheNode.

(** *** Counting the tips *)

(** The number of tips of a chain among the events. *)
Fixpoint tips_of (blockchain : string) (evs : list event) : Z :=
  match evs with
  | [] => 0
  | CollectBlock _ b _ :: evs' =>
      (if bool_decide (b = blockchain) then 1 else 0) + tips_of blockchain evs'
  | _ :: evs' => tips_of blockchain evs'
  end.

End Engine.

(** ** The publish/subscribe hub of the engine *)
Module PubSub.

(** The names every object literal inherits from [Object.prototype] *)
Definition Object_prototype : list string :=
  ["constructor"; "__defineGetter__"; "__defineSetter__"; "hasOwnProperty";
   "__lookupGetter__"; "__lookupSetter__"; "isPrototypeOf"; "propertyIsEnumerable";
   "toString"; "valueOf"; "__proto__"; "toLocaleString"].

Section Subscribers.
(** What [RxPubSub.subscribe(topic, listener)] returns: the library is
    not part of the sources. *)
Variables (listener subscriber : Type).
Variable RxPubSub_subscribe : string -> listener -> subscriber.

(** [{ stats: { count }, subscribers: [{ subscriber, context }] }] *)
Record entry : Type := {
  stats_count : Z;
  subscribers : list (subscriber * string)
}.

(** [this._subscribers], an object keyed by topic *)
Definition t : Type := gmap string entry.

Definition create : t := ∅.

(** [subscribe (topic, context, listener)]; the empty string and an
    absent listener are the falsy arguments.  Under a name that
    [_subscribers] inherits, the lookup finds a value with no
    [subscribers], and the [push] fails. *)
Definition subscribe (topic context : string) (l : option listener)
  : M t subscriber :=
  if bool_decide (topic = "") then throw (Error "No topic to subscribe specified")
  else if bool_decide (context = "") then throw (Error "No subscribe context specified")
  else match l with
       | None => throw (Error "No pubsub listener specified")
       | Some l =>
           if bool_decide (topic ∈ Object_prototype) then
             throw (TypeError "Cannot read property 'push' of undefined")
           else
           _ ← modify (fun self =>
                         match self !! topic with
                         | None => <[topic := {| stats_count := 0; subscribers := [] |}]> self
                         | Some _ => self
                         end);
           let subscriber := RxPubSub_subscribe topic l in
           _ ← modify (fun self =>
                         match self !! topic with
                         | Some e =>
                             <[topic := {| stats_count := stats_count e;
                                           subscribers := subscribers e ++ [(subscriber, context)] |}]>
                               self
                         | None => self
                         end);
           _ ← modify (fun self =>
                         match self !! topic with
                         | Some e =>
                             <[topic := {| stats_count := stats_count e + 1;
                                           subscribers := subscribers e |}]> self
                         | None => self
                         end);
           mret subscriber
       end.

(** A sequence of [subscribe] calls, each of which may throw. *)
Definition subscribe_all (calls : list (string * string * option listener)) (self : t) : t :=
  foldl (fun self '(topic, context, l) => snd (subscribe topic context l self)) self calls.

(** The counter of every topic is the number of its subscribers. *)
Definition counts_subscribers (self : t) : Prop :=
  map_Forall (fun _ e => stats_count e = Z.of_nat (length (subscribers e))) self.

End Subscribers.

End PubSub.

(** ** src/p2p/protocol/rpc/index.es6 *)
Module Rpc.
Import Persistence.

Definition MAX_BLOCKS_COUNT : Z := 100000.

(** [p.then(f)]: the callback returns a promise (a plain value counts as
    a resolved one) or throws, which rejects. *)
Definition then_ {A B} (p : promise A) (f : A -> outcome (promise B)) : promise B :=
  match p with
  | Resolved a => match f a with Ok q => q | Throw e => Rejected e end
  | Rejected e => Rejected e
  end.

(** [p.then(f, g)] *)
Definition then2 {A B} (p : promise A) (f : A -> outcome (promise B))
           (g : exn -> outcome (promise B)) : promise B :=
  match p with
  | Resolved a => match f a with Ok q => q | Throw e => Rejected e end
  | Rejected e => match g e with Ok q => q | Throw e' => Rejected e' end
  end.

(** [p.catch(g)] *)
Definition catch_ {A} (p : promise A) (g : exn -> outcome (promise A)) : promise A :=
  match p with
  | Resolved a => Resolved a
  | Rejected e => match g e with Ok q => q | Throw e' => Rejected e' end
  end.

(** [for (let i = from; i <= to; i++) ids.push(`bc.block.${i}`)] *)
Definition ids_up (from to : Z) : list string :=
  block_key <$> seqZ from (to - from + 1).

(** [for (let i = 0; i < blocksCount; i++) ids.push(`bc.block.${height - i}`)] *)
Definition ids_down (height blocksCount : Z) : list string :=
  (fun i => block_key (height - i)) <$> seqZ 0 blocksCount.

(** The parameter [q] of [query] *)
Record query_params : Type := {
  queryHeight : Z;
  queryHash : string;
  low : Z;
  high : Z
}.

(** What the first callback of [query] hands to the second: the empty
    array, or the latest block. *)
Inductive found : Type :=
| EmptyArray
| Latest (latestBlock : BcBlock).

Section Handlers.
(** [block.serializeBinary()] *)
Variable serializeBinary : BcBlock -> string.
(** [manager.engine.persistence.get(ids)] with an array of keys: what the
    store settles the batch with is a parameter. *)
Variable get_many : list string -> promise (list BcBlock).
(** The store behind [manager.engine.persistence] *)
Variable store : db.

(** [(res) => res.map((block) => block.serializeBinary())]; [None] is
    [undefined]. *)
Definition serialize_all (res : option (list BcBlock)) : outcome (promise (list string)) :=
  match res with
  | Some blocks => Ok (Resolved (serializeBinary <$> blocks))
  | None => Throw (TypeError "Cannot read property 'map' of undefined")
  end.

Definition getHeaders (from to : Z * string) : promise (list string) :=
  let '(fromHeight, fromHash) := from in
  let '(toHeight, toHash) := to in
  if toHeight <? fromHeight then
    Rejected (Error ("From: " +:+ pretty fromHeight +:+ " > to: " +:+ pretty toHeight))
  else if MAX_BLOCKS_COUNT <? toHeight - fromHeight then
    Rejected (Error ("Cannot return more than " +:+ pretty MAX_BLOCKS_COUNT +:+ " blocks"))
  else
    let ids := ids_up fromHeight toHeight in
    let checked : promise (option (list BcBlock)) :=
      then2 (get_many ids)
        (fun blocks =>
           first ← match head blocks with
                   | Some b => Ok b
                   | None => Throw (TypeError "Cannot read property 'getHash' of undefined")
                   end;
           if negb (bool_decide (getHash first = fromHash)) then
             Ok (Rejected (Error ("Wrong hash of from block, requested " +:+ fromHash
                                  +:+ ", got " +:+ getHash first)))
           else
             lastBlock ← match last blocks with
                         | Some b => Ok b
                         | None => Throw (TypeError "Cannot read property 'getHash' of undefined")
                         end;
             if negb (bool_decide (getHash lastBlock = toHash)) then
               Ok (Rejected (Error ("Wrong hash of to block, requested " +:+ toHash
                                    +:+ ", got " +:+ getHash lastBlock)))
             else
               (* the callback ends without a [return] *)
               Ok (Resolved None))
        (fun err =>
           Ok (Rejected (Error ("Could not retrieve some block between height "
                                +:+ pretty fromHeight +:+ " and " +:+ pretty toHeight
                                +:+ " from persistence, err: " +:+ Engine.describe_exn err))))
    in
    then_ checked serialize_all.

Definition getLatestHeader : promise (list string) :=
  then_ (get store "bc.block.latest") (fun res => Ok (Resolved [serializeBinary res])).

Definition getLatestHeaders (count : Z) : promise (list string) :=
  then_ (get store "bc.block.latest")
    (fun block =>
       (* [!block] is false of a block *)
       let height := getHeight block in
       let blocksCount := Z.min (Z.min count height) MAX_BLOCKS_COUNT in
       let ids := ids_down height blocksCount in
       Ok (then_ (get_many ids) (fun res => serialize_all (Some res)))).

Definition getMultiverse : promise (list string) :=
  then_ (get store "bc.block.latest")
    (fun block =>
       let height := getHeight block in
       let blocksCount := Z.min 7 height in
       let ids := ids_down height blocksCount in
       Ok (then_ (get_many ids) (fun res => serialize_all (Some res)))).

Definition query (q : query_params) : promise (list string) :=
  let id := block_key (queryHeight q) in
  catch_
    (then_
       (then_ (get store id)
          (fun b =>
             if negb (bool_decide (getHash b = queryHash q)) then Ok (Resolved EmptyArray)
             else Ok (match get store "bc.block.latest" with
                      | Resolved latestBlock => Resolved (Latest latestBlock)
                      | Rejected e => Rejected e
                      end)))
       (fun latestBlock =>
          match latestBlock with
          | EmptyArray => Throw (TypeError "latestBlock.getHeight is not a function")
          | Latest latestBlock =>
              let ids := ids_up (Z.max 1 (low q)) (Z.min (high q) (getHeight latestBlock)) in
              Ok (then_ (get_many ids) (fun res => serialize_all (Some res)))
          end))
    (fun e => Ok (Resolved [])).

End Handlers.

End Rpc.

(** ** Concrete inputs used by the examples below *)

(** A run in which the difficulty is raised after the first second: the
    first nonce beats the initial threshold 100 but not the difficulty 500
    recomputed for second 11; the second nonce is accepted. *)
Definition two_passes : list Miner.tick :=
  [ {| Miner.tk_now := 1000; Miner.tk_nowSeconds := 11; Miner.tk_nonce := "0.25";
       Miner.tk_result := 300; Miner.tk_now_done := 1001 |};
    {| Miner.tk_now := 1002; Miner.tk_nowSeconds := 11; Miner.tk_nonce := "0.75";
       Miner.tk_result := 700; Miner.tk_now_done := 1003 |} ].

(** Two blocks for the examples: [block_b] is a child of [block_a]. *)
Definition block_a : BcBlock :=
  {| getHash := "a"; getPreviousHash := "0"; getHeight := 1; getTimestamp := 10;
     getTotalDistance := 1; getBlockchainHeaders := [("btcList", ["h1"])] |}.
Definition block_b : BcBlock :=
  {| getHash := "b"; getPreviousHash := "a"; getHeight := 2; getTimestamp := 20;
     getTotalDistance := 5; getBlockchainHeaders := [("btcList", ["h2"])] |}.

Definition two_heights : Multiverse.t :=
  {| Multiverse._blocks := <[2 := [block_b]]> (<[1 := [block_a]]> ∅);
     Multiverse._selective := false |}.

Definition one_height : Multiverse.t :=
  {| Multiverse._blocks := <[2 := [block_b]]> ∅;
     Multiverse._selective := false |}.

(** A block at height 2 whose previous hash is not the hash of [block_a]. *)
Definition block_c : BcBlock :=
  {| getHash := "c"; getPreviousHash := "z"; getHeight := 2; getTimestamp := 30;
     getTotalDistance := 9; getBlockchainHeaders := [("btcList", ["h3"])] |}.

(** An engine whose store holds [block_a] at height 1. *)
Definition engine_a : Engine.t :=
  Engine.create ["btc"; "eth"] (<[Persistence.block_key 1 := block_a]> ∅).

Definition plain (block : BcBlock) : Engine.message :=
  {| Engine.data := block; Engine.force := None |}.

(** A fresh block pool and a store with blocks at heights 2, 3 and 4. *)
Definition fresh_pool : BlockPool.t := BlockPool.create ∅ block_a.

Definition no_previousHash (earliest : BcBlock) : outcome string :=
  Throw (TypeError "earliest.previousHash is not a function").

Definition stored_2_3_4 : BlockPool.t :=
  BlockPool.create
    (<[Persistence.block_key 4 := block_c]>
       (<[Persistence.block_key 3 := block_c]>
          (<[Persistence.block_key 2 := block_b]> ∅))) block_a.

(** Two tips, one per known rover of [engine_a]; the engine is syncing when
    the second arrives, so no mining is started. *)
Definition idle : Engine.mining :=
  {| Engine.mining_worker := Engine.WUndefined; Engine.mining_unfinished := None |}.

Definition one_tip_each : list Engine.event :=
  [ Engine.ReceiveSyncPeriod true;
    Engine.CollectBlock ["btc"; "eth"] "btc" idle;
    Engine.CollectBlock ["btc"; "eth"] "eth" idle ].

Definition later_events : list Engine.event :=
  [ Engine.StateResyncFailed; Engine.WorkerExit (Some 1);
    Engine.StateBlockHeight (plain block_c); Engine.StopMining ].

(** A string of two chunks of 32 characters, and one of 33 characters. *)
Definition two_chunks : string :=
  "aaaaaaaaaaaaaaaaaaaaaaaaaaaaaaaaUUUUUUUUUUUUUUUU################".


(** The strings of two hexadecimal digits, and the test that a call
    returned a number equal ([===]) to a given one. *)
Definition hex_digits : list Ascii.ascii :=
  String.list_ascii_of_string "0123456789abcdef".

Definition hex_pairs : list string :=
  a ← hex_digits; b ← hex_digits; [String a (String b EmptyString)].

Definition returns (v : float) (r : outcome float) : bool :=
  match r with
  | Ok f => PrimFloat.eqb f v
  | Throw _ => false
  end.

Definition NUL : Ascii.ascii := Ascii.zero.

Definition thirty_three : string := "aaaaaaaaaaaaaaaaaaaaaaaaaaaaaaaab".

(** A tip of a chain the engine was not built for, then one tip of each
    known chain. *)
Definition stray_tip_first : list Engine.event :=
  [ Engine.ReceiveSyncPeriod true;
    Engine.CollectBlock ["btc"; "eth"] "xyz" idle;
    Engine.CollectBlock ["btc"; "eth"] "btc" idle;
    Engine.CollectBlock ["btc"; "eth"] "eth" idle ].

(** Stand-ins for the hash function and for the reading of hexadecimal
    strings, for the examples. *)
Definition toy_blake2bl (s : string) : string := "H(" +:+ s +:+ ")".
Definition toy_hexToBN (s : string) : Z := Z.of_nat (String.length s).

Definition header_1 : Miner.BlockchainHeader :=
  {| Miner.header_getHash := "aa"; Miner.header_getMerkleRoot := "01" |}.
Definition header_2 : Miner.BlockchainHeader :=
  {| Miner.header_getHash := "bbbb"; Miner.header_getMerkleRoot := "02" |}.

(** A pass that starts after the deadline of a loop started at time 999. *)
Definition late_pass : list Miner.tick :=
  [ {| Miner.tk_now := 301000; Miner.tk_nowSeconds := 311; Miner.tk_nonce := "0.5";
       Miner.tk_result := 700; Miner.tk_now_done := 301001 |} ].

(** A multiverse of seven heights, 1 to 7, each with one block. *)
Definition block_at (height : Z) : BcBlock :=
  {| getHash := "h" +:+ pretty height; getPreviousHash := "h" +:+ pretty (height - 1);
     getHeight := height; getTimestamp := 10 * height;
     getTotalDistance := height; getBlockchainHeaders := [("btcList", [pretty height])] |}.

Definition seven_heights : Multiverse.t :=
  {| Multiverse._blocks :=
       list_to_map (map (fun h => (h, [block_at h])) [1; 2; 3; 4; 5; 6; 7]);
     Multiverse._selective := false |}.

(** A block far above the seven heights. *)
Definition block_far : BcBlock := block_at 20.

(** A block pool whose store has a latest block at height 5. *)
Definition pool_with_latest : BlockPool.t :=
  BlockPool.create
    (<["bc.block.latest" := block_at 5]>
       (<[Persistence.block_key 3 := block_at 3]>
          (<[Persistence.block_key 2 := block_at 2]> ∅))) block_a.

(** The block pool of a node whose store deletes every key it is asked to. *)
Definition node_purgeFrom (start end_ : Z) (store : Persistence.db)
  : promise value * Persistence.db :=
  let '(r, pool) :=
    BlockPool.purgeFrom (fun _ => false) start end_ (BlockPool.create store block_a) in
  (r, BlockPool._persistence pool).

(** An engine whose latest block is [block_a]. *)
Definition engine_latest : Engine.t :=
  Engine.create ["btc"; "eth"] (<["bc.block.latest" := block_a]> ∅).

Definition update_of (block : BcBlock) : Engine.update_message :=
  {| Engine.u_data := Some block; Engine.u_force := None;
     Engine.u_multiverse := None; Engine.u_purge := None |}.

Definition forced_update (block : BcBlock) (multiverse : list BcBlock)
  : Engine.update_message :=
  {| Engine.u_data := Some block; Engine.u_force := Some true;
     Engine.u_multiverse := Some multiverse; Engine.u_purge := None |}.

(** A store with blocks at heights 1 to 3 and the latest one, and a
    batched get that answers from it when every key is there. *)
Definition three_blocks : Persistence.db :=
  <["bc.block.latest" := block_at 3]>
    (list_to_map (map (fun h => (Persistence.block_key h, block_at h)) [1; 2; 3])).

Definition get_all (store : Persistence.db) (ids : list string) : promise (list BcBlock) :=
  match mapM (fun id => store !! id) ids with
  | Some blocks => Resolved blocks
  | None => Rejected (Error "key not found")
  end.

(** * Properties *)

(** ** Difficulty *)

Lemma BN_new_number n base :
  Z.abs n < BN.MAX_SAFE -> BN.new (BN.JsNumber n) base = Ok n.
Proof.
  intros H. unfold BN.new.
  destruct (Z.ltb_spec (Z.abs n) BN.MAX_SAFE); [reflexivity | lia].
Qed.

(** On numbers below 2^53 with [previousBlockTime <= currentBlockTime] the
    truncated quotient is the floor, and [getDiff] is the rule of the
    specification. *)
Lemma getDiff_forward now prev_ts prev_distance min_diff new_block_count :
  Z.abs now < BN.MAX_SAFE -> Z.abs prev_ts < BN.MAX_SAFE ->
  Z.abs prev_distance < BN.MAX_SAFE -> Z.abs min_diff < BN.MAX_SAFE ->
  Z.abs new_block_count < BN.MAX_SAFE ->
  prev_ts <= now ->
  Miner.getDiff (BN.JsNumber now) (BN.JsNumber prev_ts) (BN.JsNumber prev_distance)
                (BN.JsNumber min_diff) (BN.JsNumber new_block_count)
  = Ok (Miner.get_diff_spec now prev_ts prev_distance min_diff new_block_count).
Proof.
  intros Hn Hp Hd Hm Hc Hle.
  unfold Miner.getDiff.
  rewrite !BN_new_number by (try assumption; reflexivity).
  cbn [mbind outcome_bind].
  unfold Miner.get_diff_spec, BN.div, BN.sub, BN.add, BN.mul, BN.gt, BN.lt.
  cbn [Z.eqb mbind outcome_bind].
  set (elapsed := now - prev_ts).
  set (bonus := elapsed + (elapsed - 4) * new_block_count).
  set (e := if 0 <? bonus then bonus else elapsed).
  assert (He : 0 <= e).
  { subst e. destruct (Z.ltb_spec 0 bonus); subst elapsed; lia. }
  rewrite (Z.quot_div_nonneg e 6) by lia.
  set (x := 1 - e / 6).
  assert (Hx : (if x <? -99 then -99 else x) = Z.max x (-99)).
  { destruct (Z.ltb_spec x (-99)); lia. }
  rewrite Hx.
  set (r := Z.max x (-99) * (prev_distance ÷ 148) + prev_distance).
  replace (prev_distance + Z.max x (-99) * (prev_distance ÷ 148)) with r
    by (subst r; lia).
  destruct (Z.ltb_spec r min_diff); f_equal; lia.
Qed.

(** C1: with [currentBlockTime = 5] and [previousBlockTime = 6] the elapsed
    time is -1; the quotient by 6 is truncated to 0 where the floor is -1,
    so [getDiff] returns 148 + 1 * 1 = 149 and the rule with the floor gives
    148 + 2 * 1 = 150. *)
Lemma getDiff_truncates_negative_elapsed :
  Miner.getDiff (BN.JsNumber 5) (BN.JsNumber 6) (BN.JsNumber 148)
                (BN.JsNumber 0) (BN.JsNumber 0) = Ok 149
  /\ Miner.get_diff_spec 5 6 148 0 0 = 150.
Proof. split; reflexivity. Qed.

(** C4: the constant is the value of the numeric literal, read in base
    ten: the constructor gives the same integer for the literal whatever
    radix it is passed. *)
Lemma MINIMUM_DIFFICULTY_is_decimal_literal :
  Miner.MINIMUM_DIFFICULTY = Ok 11801972029393
  /\ forall base, BN.new (BN.JsNumber 11801972029393) base = Miner.MINIMUM_DIFFICULTY.
Proof.
  split.
  - unfold Miner.MINIMUM_DIFFICULTY. apply BN_new_number. reflexivity.
  - intros base. unfold Miner.MINIMUM_DIFFICULTY.
    now rewrite !BN_new_number by reflexivity.
Qed.

(** C4, as stated: the constant is neither the hexadecimal reading of the
    digits nor the decimal value quoted for it (which are two different
    numbers). *)
Lemma MINIMUM_DIFFICULTY_is_not_hexadecimal :
  ~ (Miner.MINIMUM_DIFFICULTY = Ok 0x11801972029393
     \/ Miner.MINIMUM_DIFFICULTY = Ok 4925904907162515).
Proof. intros [H | H]; discriminate H. Qed.

(** ** The mining loop *)

Lemma BN_new_toZ v base n : BN.new v base = Ok n -> n = BN.toZ v.
Proof.
  destruct v as [m | m]; simpl.
  - destruct (Z.abs m <? BN.MAX_SAFE); [congruence | discriminate].
  - congruence.
Qed.

Lemma mine_loop_solved env : forall tsStart maxEnd calc ts difficulty iterations res,
  Miner.mine_loop env tsStart maxEnd calc ts difficulty iterations = Miner.Solved res ->
  exists (i : nat) (tk : Miner.tick),
    env !! i = Some tk
    /\ Miner.sol_iterations res = iterations + Z.of_nat i + 1
    /\ Miner.sol_distance res = Miner.tk_result tk
    /\ (Miner.sol_timestamp res, Miner.sol_difficulty res)
       = Miner.in_effect calc (ts, difficulty) env i
    /\ BN.toZ (Miner.sol_difficulty res) < Miner.sol_distance res.
Proof.
  induction env as [| tk env IH]; intros tsStart maxEnd calc ts difficulty iterations res.
  - discriminate.
  - cbn [Miner.mine_loop].
    destruct (maxEnd <? Miner.tk_now tk); [discriminate |].
    destruct (Miner.refresh calc (Miner.tk_nowSeconds tk) (ts, difficulty))
      as [ts' difficulty'] eqn:Hrefresh.
    destruct (BN.new (BN.JsNumber (Miner.tk_result tk)) 16) as [r | e] eqn:Hr;
      [| discriminate].
    destruct (BN.new difficulty' 16) as [d | e] eqn:Hd; [| discriminate].
    destruct (BN.gt r d) eqn:Hgt.
    + intros [= <-]. exists 0%nat, tk. cbn [Miner.in_effect].
      rewrite Hrefresh. cbn.
      apply BN_new_toZ in Hr, Hd. cbn in Hr. subst r d.
      unfold BN.gt in Hgt. apply Z.ltb_lt in Hgt.
      repeat split; [lia | exact Hgt].
    + intros Hrec. apply IH in Hrec as (i & tk' & Hi & Hit & Hdist & Heff & Hlt).
      exists (S i), tk'. cbn [Miner.in_effect]. rewrite Hrefresh.
      repeat split; [exact Hi | lia | exact Hdist | exact Heff | exact Hlt].
Qed.

(** C5: a solution returned by [mine] was found in some pass [i] of the
    loop; its distance is the one computed in that pass, its difficulty is
    the one in effect in that pass, and the distance is strictly greater,
    as integers. *)
Theorem mine_solution_exceeds_difficulty tsStart env currentTimestamp threshold calc res :
  Miner.mine tsStart env currentTimestamp threshold calc = Miner.Solved res ->
  exists (i : nat) (tk : Miner.tick),
    env !! i = Some tk
    /\ Miner.sol_iterations res = Z.of_nat i + 1
    /\ Miner.sol_distance res = Miner.tk_result tk
    /\ (Miner.sol_timestamp res, Miner.sol_difficulty res)
       = Miner.in_effect calc (currentTimestamp, threshold) env i
    /\ BN.toZ (Miner.sol_difficulty res) < Miner.sol_distance res.
Proof.
  unfold Miner.mine. intros H.
  apply mine_loop_solved in H as (i & tk & H1 & H2 & H3 & H4 & H5).
  exists i, tk. repeat split; [exact H1 | lia | exact H3 | exact H4 | exact H5].
Qed.


Lemma mine_solution_exceeds_difficulty_witness :
  exists res,
    Miner.mine 999 two_passes 10 (BN.JsNumber 100)
               (Some (fun now => BN.JsNumber 500)) = Miner.Solved res
    /\ Miner.sol_distance res = 700
    /\ exists (i : nat) (tk : Miner.tick),
         two_passes !! i = Some tk
         /\ Miner.sol_iterations res = Z.of_nat i + 1
         /\ Miner.sol_distance res = Miner.tk_result tk
         /\ (Miner.sol_timestamp res, Miner.sol_difficulty res)
            = Miner.in_effect (Some (fun now => BN.JsNumber 500))
                              (10, BN.JsNumber 100) two_passes i
         /\ BN.toZ (Miner.sol_difficulty res) < Miner.sol_distance res.
Proof.
  eexists. split; [reflexivity |]. split; [reflexivity |].
  apply (mine_solution_exceeds_difficulty 999 two_passes 10 (BN.JsNumber 100)
           (Some (fun now => BN.JsNumber 500))).
  reflexivity.
Defined.

(** The loop does not run on once the clock has passed the deadline. *)
Lemma mine_loop_stops env : forall tsStart maxEnd calc ts difficulty iterations,
  Exists (fun tk => maxEnd < Miner.tk_now tk) env ->
  Miner.mine_loop env tsStart maxEnd calc ts difficulty iterations <> Miner.Running.
Proof.
  induction env as [| tk env IH]; intros tsStart maxEnd calc ts difficulty iterations Hex.
  - inversion Hex.
  - cbn [Miner.mine_loop].
    destruct (Z.ltb_spec maxEnd (Miner.tk_now tk)) as [Hlt | Hge]; [discriminate |].
    destruct (Miner.refresh calc (Miner.tk_nowSeconds tk) (ts, difficulty))
      as [ts' difficulty'].
    destruct (BN.new (BN.JsNumber (Miner.tk_result tk)) 16); [| discriminate].
    destruct (BN.new difficulty' 16); [| discriminate].
    destruct (BN.gt _ _); [discriminate |].
    apply IH. inversion Hex; subst; [lia | assumption].
Qed.

(** ** Multiverse *)

Lemma reduce_any_spec p row :
  Multiverse.reduce_any p row = true <-> Exists (fun item => p item = true) row.
Proof.
  unfold Multiverse.reduce_any.
  assert (Hgen : forall acc,
    foldl (fun (all : bool) item => if p item then true else all) acc row = true
    <-> acc = true \/ Exists (fun item => p item = true) row).
  { induction row as [| item row IH]; intros acc; cbn [foldl].
    - rewrite Exists_nil. tauto.
    - rewrite IH, Exists_cons. destruct (p item); intuition congruence. }
  rewrite Hgen. intuition discriminate.
Qed.

Lemma sort_insert_perm a row : Multiverse.sort_insert a row ≡ₚ a :: row.
Proof.
  induction row as [| b row IH]; cbn [Multiverse.sort_insert]; [reflexivity |].
  destruct (BN.gt _ _); [| reflexivity].
  rewrite IH. apply perm_swap.
Qed.

Lemma sort_perm row : Multiverse.sort row ≡ₚ row.
Proof.
  induction row as [| a row IH]; cbn; [reflexivity |].
  rewrite sort_insert_perm. now rewrite IH.
Qed.

(** After [push] the row at the height holds the old blocks and the new
    one; the other rows are untouched. *)
Lemma push_row self height block :
  exists row,
    Multiverse._blocks (Multiverse.push self height block) !! height = Some row
    /\ row ≡ₚ default [] (Multiverse._blocks self !! height) ++ [block].
Proof.
  unfold Multiverse.push. cbn [Multiverse._blocks].
  rewrite lookup_insert_eq. eexists. split; [reflexivity |].
  destruct (1 <? _)%nat; [apply sort_perm | reflexivity].
Qed.

Lemma push_other self height block h :
  h ≠ height ->
  Multiverse._blocks (Multiverse.push self height block) !! h
  = Multiverse._blocks self !! h.
Proof.
  intros Hne. unfold Multiverse.push. cbn [Multiverse._blocks].
  now rewrite lookup_insert_ne.
Qed.

Lemma syncing_below_seven self :
  (Multiverse.keyCount self < 7)%nat -> Multiverse._selective self = false ->
  Multiverse.syncing self = true.
Proof.
  intros Hk Hs. unfold Multiverse.syncing. rewrite Hs.
  destruct (Nat.ltb_spec (Multiverse.keyCount self) 7); [reflexivity | lia].
Qed.


(** C6, as stated: [two_heights] has two populated heights and is not
    selective, yet adding [block_b], which is already there and has its
    parent at height 1, returns false and appends nothing. *)
Lemma addBlock_syncing_duplicate_refused :
  (Multiverse.keyCount two_heights < 7)%nat
  /\ Multiverse._selective two_heights = false
  /\ Multiverse.addBlock two_heights block_b false = Ok (false, two_heights).
Proof. split; [vm_compute; lia |]. split; reflexivity. Qed.

(** [rows_nonempty] holds of a new multiverse and is kept by [addBlock]. *)
Lemma create_rows_nonempty selective :
  Multiverse.rows_nonempty (Multiverse.create selective).
Proof. apply map_Forall_empty. Qed.

Lemma push_rows_nonempty self height block :
  Multiverse.rows_nonempty self ->
  Multiverse.rows_nonempty (Multiverse.push self height block).
Proof.
  intros Hne. destruct (push_row self height block) as (row & Hrow & Hperm).
  intros h r Hr. destruct (decide (h = height)) as [-> | Hh].
  - rewrite Hrow in Hr. injection Hr as <-. intros ->.
    apply Permutation_nil_l in Hperm. now destruct (default [] _).
  - rewrite push_other in Hr by exact Hh. now apply (Hne h).
Qed.

Lemma addBlock_rows_nonempty self block force added self' :
  Multiverse.rows_nonempty self ->
  Multiverse.addBlock self block force = Ok (added, self') ->
  Multiverse.rows_nonempty self'.
Proof.
  intros Hne. unfold Multiverse.addBlock.
  destruct (Multiverse.hasParent self block) as [hp | e]; [| discriminate].
  destruct (Multiverse.hasChild self block) as [hc | e]; [| discriminate].
  cbn [mbind outcome_bind].
  repeat case_match; intros [= <- <-];
    first [exact Hne | now apply push_rows_nonempty].
Qed.

Lemma hasParent_defined self block :
  Multiverse.rows_nonempty self -> exists hp, Multiverse.hasParent self block = Ok hp.
Proof.
  intros Hne. unfold Multiverse.hasParent.
  destruct (Multiverse._blocks self !! (getHeight block - 1)) as [row |] eqn:Hrow;
    [| eauto].
  destruct row as [| first row]; [| eauto].
  now apply Hne in Hrow.
Qed.

Lemma hasChild_defined self block :
  Multiverse.rows_nonempty self -> exists hc, Multiverse.hasChild self block = Ok hc.
Proof.
  intros Hne. unfold Multiverse.hasChild.
  destruct (Multiverse._blocks self !! (getHeight block + 1)) as [row |] eqn:Hrow;
    [| eauto].
  destruct row as [| first row]; [| eauto].
  now apply Hne in Hrow.
Qed.

(** C6, amended: below seven populated heights a multiverse that is not
    selective takes every block as syncing.  The block is appended to the
    row of its height and [true] is returned, except when the block has a
    parent or a child in the multiverse and its hash is already in the row:
    then nothing changes and [false] is returned. *)
Theorem addBlock_syncing self block force :
  Multiverse.rows_nonempty self ->
  (Multiverse.keyCount self < 7)%nat ->
  Multiverse._selective self = false ->
  Multiverse.syncing self = true
  /\ exists hp hc,
       Multiverse.hasParent self block = Ok hp
       /\ Multiverse.hasChild self block = Ok hc
       /\ if (hp || hc) && Multiverse.alreadyInMultiverse self block
          then Multiverse.addBlock self block force = Ok (false, self)
          else exists self' row,
                 Multiverse.addBlock self block force = Ok (true, self')
                 /\ Multiverse._blocks self' !! getHeight block = Some row
                 /\ row ≡ₚ default [] (Multiverse._blocks self !! getHeight block)
                            ++ [block]
                 /\ forall h, h ≠ getHeight block ->
                      Multiverse._blocks self' !! h = Multiverse._blocks self !! h.
Proof.
  intros Hne Hk Hs.
  pose proof (syncing_below_seven self Hk Hs) as Hsync.
  split; [exact Hsync |].
  destruct (hasParent_defined self block Hne) as [hp Hp].
  destruct (hasChild_defined self block Hne) as [hc Hc].
  exists hp, hc. split; [exact Hp |]. split; [exact Hc |].
  unfold Multiverse.addBlock. rewrite Hp, Hc, Hsync. cbn [mbind outcome_bind].
  destruct (hp || hc); cbn [andb].
  - destruct (Multiverse.alreadyInMultiverse self block); cbn [negb]; [reflexivity |].
    destruct (push_row self (getHeight block) block) as (row & Hrow & Hperm).
    eexists _, row. split; [reflexivity |]. split; [exact Hrow |].
    split; [exact Hperm |]. intros h Hh. now apply push_other.
  - cbn [orb].
    destruct (push_row self (getHeight block) block) as (row & Hrow & Hperm).
    eexists _, row. split; [reflexivity |]. split; [exact Hrow |].
    split; [exact Hperm |]. intros h Hh. now apply push_other.
Qed.

Lemma two_heights_rows_nonempty : Multiverse.rows_nonempty two_heights.
Proof.
  unfold Multiverse.rows_nonempty, two_heights. cbn [Multiverse._blocks].
  apply map_Forall_insert_2; [discriminate |].
  apply map_Forall_insert_2; [discriminate |].
  apply map_Forall_empty.
Qed.

Lemma addBlock_syncing_witness :
  Multiverse.syncing two_heights = true
  /\ exists hp hc,
       Multiverse.hasParent two_heights block_a = Ok hp
       /\ Multiverse.hasChild two_heights block_a = Ok hc
       /\ if (hp || hc) && Multiverse.alreadyInMultiverse two_heights block_a
          then Multiverse.addBlock two_heights block_a true = Ok (false, two_heights)
          else exists self' row,
                 Multiverse.addBlock two_heights block_a true = Ok (true, self')
                 /\ Multiverse._blocks self' !! getHeight block_a = Some row
                 /\ row ≡ₚ default [] (Multiverse._blocks two_heights !! getHeight block_a)
                            ++ [block_a]
                 /\ forall h, h ≠ getHeight block_a ->
                      Multiverse._blocks self' !! h = Multiverse._blocks two_heights !! h.
Proof.
  apply (addBlock_syncing two_heights block_a true).
  - exact two_heights_rows_nonempty.
  - vm_compute. lia.
  - reflexivity.
Defined.

(** C9: in the branch taken when the block has neither parent nor child and
    [force] or [syncing] holds, a block whose hash is already in the row of
    its height is appended once more and [true] is returned: the new row
    holds the old row and the block. *)
Theorem addBlock_force_appends_duplicate self block force :
  force = true
  \/ ((Multiverse.keyCount self < 7)%nat /\ Multiverse._selective self = false) ->
  Multiverse.hasParent self block = Ok false ->
  Multiverse.hasChild self block = Ok false ->
  Multiverse.alreadyInMultiverse self block = true ->
  exists old self' row,
    Multiverse._blocks self !! getHeight block = Some old
    /\ Exists (fun item => getHash item = getHash block) old
    /\ Multiverse.addBlock self block force = Ok (true, self')
    /\ Multiverse._blocks self' !! getHeight block = Some row
    /\ row ≡ₚ old ++ [block].
Proof.
  intros Hforce Hp Hc Hin.
  unfold Multiverse.alreadyInMultiverse in Hin.
  destruct (Multiverse._blocks self !! getHeight block) as [old |] eqn:Hold;
    [| discriminate].
  apply reduce_any_spec in Hin.
  destruct (push_row self (getHeight block) block) as (row & Hrow & Hperm).
  rewrite Hold in Hperm. cbn [default] in Hperm.
  exists old, (Multiverse.push self (getHeight block) block), row.
  split; [reflexivity |].
  split.
  { eapply Exists_impl; [exact Hin |]. intros item Hitem.
    now apply bool_decide_eq_true in Hitem. }
  split; [| split; [exact Hrow | exact Hperm]].
  unfold Multiverse.addBlock. rewrite Hp, Hc. cbn [mbind outcome_bind orb].
  destruct Hforce as [-> | [Hk Hs]].
  - now destruct (Multiverse.syncing self).
  - now rewrite (syncing_below_seven self Hk Hs).
Qed.

Lemma addBlock_force_appends_duplicate_witness :
  exists old self' row,
    Multiverse._blocks one_height !! getHeight block_b = Some old
    /\ Exists (fun item => getHash item = getHash block_b) old
    /\ Multiverse.addBlock one_height block_b false = Ok (true, self')
    /\ Multiverse._blocks self' !! getHeight block_b = Some row
    /\ row ≡ₚ old ++ [block_b].
Proof.
  apply (addBlock_force_appends_duplicate one_height block_b false).
  - right. split; [vm_compute; lia | reflexivity].
  - reflexivity.
  - reflexivity.
  - reflexivity.
Defined.

Example addBlock_twice :
  exists self',
    Multiverse.addBlock one_height block_b false = Ok (true, self')
    /\ Multiverse._blocks self' !! 2 = Some [block_b; block_b].
Proof. eexists. split; reflexivity. Qed.

(** ** storeHeight *)

Lemma block_key_inj : Inj (=) (=) Persistence.block_key.
Proof.
  intros x y H. unfold Persistence.block_key in H.
  apply (inj (String.append _)) in H. now apply (inj pretty) in H.
Qed.

(** C2, as stated: the store of [engine_a] holds [block_a] at height 1;
    [block_c] has height 2 and another previous hash.  [storeHeight]
    rejects, and neither stores the block nor logs a warning. *)
Lemma storeHeight_mismatch_not_stored :
  Engine._persistence engine_a !! Persistence.block_key 1 = Some block_a
  /\ getHash block_a <> getPreviousHash block_c
  /\ Engine.storeHeight (plain block_c) engine_a
     = (Rejected (Error "block state did not match"), engine_a)
  /\ Engine._persistence engine_a !! Persistence.block_key 2 = None
  /\ Engine.warnings engine_a = [].
Proof. repeat split; try reflexivity. discriminate. Qed.

Lemma storeHeight_unforced msg self :
  2 <= getHeight (Engine.data msg) -> Engine.force msg <> Some true ->
  Engine.storeHeight msg self
  = async
      (try_catch
         (p ← Engine.store_get (Persistence.block_key (getHeight (Engine.data msg) - 1));
          prev ← await p;
          matches ←
            (if bool_decide (getHash prev = getPreviousHash (Engine.data msg)) then
               lift (BN.lt_boolean (getTotalDistance prev) false)
             else mret false);
          if matches : bool then
            p ← Engine.store_put (Persistence.block_key (getHeight (Engine.data msg)))
                  (Engine.data msg);
            _ ← await p;
            mret (Resolved VTrue)
          else mret (Rejected (Error "block state did not match")))
         (fun err =>
            p ← Engine.store_put (Persistence.block_key (getHeight (Engine.data msg)))
                  (Engine.data msg);
            _ ← await p;
            _ ← modify (Engine.warn (" stored orphan " +:+ Engine.describe (Engine.data msg)));
            mret (Resolved VTrue))) self.
Proof.
  intros Hh Hf. unfold Engine.storeHeight, Engine.storeHeight_body.
  destruct (Z.ltb_spec (getHeight (Engine.data msg)) 2); [lia |].
  rewrite bool_decide_eq_false_2 by exact Hf. reflexivity.
Qed.

(** C2, amended: for a block of height at least 2 without the force flag,
    when the stored predecessor has another hash, or a total distance
    (not negative) that is not below the block's, [storeHeight] rejects
    with 'block state did not match' and leaves the store and the log as
    they were; when there is no stored predecessor, the block is put at
    its height as an orphan, a warning is logged, and the promise resolves
    with true.  (Nothing is said here of a predecessor that matches.) *)
Theorem storeHeight_mismatch_rejects msg self :
  let block := Engine.data msg in
  2 <= getHeight block -> Engine.force msg <> Some true ->
  match Engine._persistence self !! Persistence.block_key (getHeight block - 1) with
  | Some prev =>
      if decide (getHash prev <> getPreviousHash block
                 \/ (0 <= getTotalDistance prev
                     /\ ~ getTotalDistance prev < getTotalDistance block))
      then Engine.storeHeight msg self
           = (Rejected (Error "block state did not match"), self)
      else True
  | None =>
      Engine.storeHeight msg self
      = (Resolved VTrue,
         Engine.warn (" stored orphan " +:+ Engine.describe block)
           (Engine.set_persistence
              (<[Persistence.block_key (getHeight block) := block]>
                 (Engine._persistence self)) self))
  end.
Proof.
  intros block Hh Hf. subst block.
  rewrite storeHeight_unforced by assumption.
  unfold async, try_catch, mbind, M_bind, Engine.store_get, gets, Persistence.get.
  destruct (Engine._persistence self !! _) as [prev |] eqn:Hprev; [| reflexivity].
  cbn [await mret M_ret].
  destruct (decide _) as [Hcase | _]; [| exact I].
  destruct Hcase as [Hne | [Hpos _]].
  - rewrite bool_decide_eq_false_2 by exact Hne. reflexivity.
  - destruct (bool_decide _); [| reflexivity].
    unfold lift, BN.lt_boolean.
    destruct (Z.ltb_spec (getTotalDistance prev) 0); [lia | reflexivity].
Qed.

Lemma storeHeight_mismatch_rejects_witness :
  Engine.storeHeight (plain block_c) engine_a
  = (Rejected (Error "block state did not match"), engine_a)
  /\ exists self',
       Engine.storeHeight (plain block_c) (Engine.create ["btc"] ∅)
       = (Resolved VTrue, self')
       /\ Engine._persistence self' !! Persistence.block_key 2 = Some block_c
       /\ Engine.warnings self' = [" stored orphan 2 - c"].
Proof.
  split.
  - apply (storeHeight_mismatch_rejects (plain block_c) engine_a).
    + simpl. lia.
    + discriminate.
  - pose proof (storeHeight_mismatch_rejects (plain block_c) (Engine.create ["btc"] ∅))
      as Horphan.
    cbv zeta in Horphan.
    assert (Hnone : Engine._persistence (Engine.create ["btc"] ∅)
                    !! Persistence.block_key (getHeight (Engine.data (plain block_c)) - 1)
                    = None) by reflexivity.
    rewrite Hnone in Horphan.
    eexists. split.
    + apply Horphan; [simpl; lia | discriminate].
    + split; reflexivity.
Defined.

(** With no block stored at height 1 the same block is kept as an
    orphan. *)
Example storeHeight_orphan :
  exists self',
    Engine.storeHeight (plain block_c) (Engine.create ["btc"] ∅) = (Resolved VTrue, self')
    /\ Engine._persistence self' !! Persistence.block_key 2 = Some block_c
    /\ Engine.warnings self' = [" stored orphan 2 - c"].
Proof. eexists. repeat split; reflexivity. Qed.

(** ** Block pool *)

(** The test [_checkpoint === undefined && _checkpoint === false] holds
    for no value. *)
Lemma checkpoint_guard_never_holds cp :
  BlockPool.is_undefined cp && BlockPool.is_false cp = false.
Proof. now destruct cp. Qed.

(** The class has the field [_genesisBlock] and no member [genesisBlock]. *)
Lemma genesisBlock_is_undefined self :
  BlockPool.prop self "genesisBlock" = BlockPool.PUndefined.
Proof. reflexivity. Qed.

(** Whatever the pool and the block, the call stops at
    [self.genesisBlock.getHash()]. *)
Lemma addBlock_stops_at_genesisBlock previousHash del_rejects self block :
  BlockPool.addBlock previousHash del_rejects self block
  = (Rejected (TypeError "Cannot read property 'getHash' of undefined"), self).
Proof.
  unfold BlockPool.addBlock, async. cbn [BlockPool.addBlock_body].
  unfold mbind, M_bind, gets, BlockPool.call_getHash.
  rewrite checkpoint_guard_never_holds, genesisBlock_is_undefined. reflexivity.
Qed.

(** C8: with no checkpoint set, [addBlock] rejects with an error, for
    every block; the pool is left as it was. *)
Theorem addBlock_without_checkpoint_rejects previousHash del_rejects self block :
  BlockPool._checkpoint self = BlockPool.CpFalse
  \/ BlockPool._checkpoint self = BlockPool.CpUndefined ->
  exists e,
    BlockPool.addBlock previousHash del_rejects self block = (Rejected e, self).
Proof.
  intros _. eexists. apply addBlock_stops_at_genesisBlock.
Qed.

Lemma addBlock_without_checkpoint_rejects_witness :
  exists e,
    BlockPool.addBlock no_previousHash (fun _ => false) fresh_pool block_b
    = (Rejected e, fresh_pool).
Proof.
  apply (addBlock_without_checkpoint_rejects no_previousHash (fun _ => false)
           fresh_pool block_b).
  left. reflexivity.
Defined.

Section PurgeFrom.
Variable del_rejects : string -> bool.

Lemma set_persistence_same self :
  BlockPool.set_persistence (BlockPool._persistence self) self = self.
Proof. now destruct self. Qed.

Lemma set_persistence_twice d d' self :
  BlockPool.set_persistence d (BlockPool.set_persistence d' self)
  = BlockPool.set_persistence d self.
Proof. reflexivity. Qed.

Lemma purgeFrom_rejects_at_once start end_ self :
  end_ < 1 \/ start <= 1 ->
  BlockPool.purgeFrom del_rejects start end_ self
  = (Rejected (Error "cannot purge below height 2"), self).
Proof.
  intros H. simp purgeFrom.
  destruct (decide (end_ < 1 ∨ start ≤ 1)); [reflexivity | contradiction].
Qed.

Lemma purgeFrom_resolves_at_end start self :
  2 <= start ->
  BlockPool.purgeFrom del_rejects start start self = (Resolved VTrue, self).
Proof.
  intros H. simp purgeFrom.
  destruct (decide (start < 1 ∨ start ≤ 1)); [lia |]. cbn.
  destruct (decide (start = start)); [reflexivity | contradiction].
Qed.

Lemma purgeFrom_step start end_ self :
  1 <= end_ -> 2 <= start -> start <> end_ ->
  BlockPool.purgeFrom del_rejects start end_ self
  = BlockPool.purgeFrom del_rejects (start - 1) end_
      (BlockPool.set_persistence
         (snd (Persistence.del del_rejects (BlockPool._persistence self)
                 (Persistence.block_key start))) self).
Proof.
  intros He Hs Hne. rewrite BlockPool.purgeFrom_equation_1.
  destruct (decide (end_ < 1 ∨ start ≤ 1)); [lia |]. cbn.
  destruct (decide (start = end_)); [contradiction |]. cbn.
  destruct (Persistence.del _ _ _) as [[v | err] d]; reflexivity.
Qed.

(** From [start >= end >= 2] the recursion deletes [start - end] keys and
    resolves. *)
Lemma purgeFrom_resolves n : forall start end_ self,
  2 <= end_ -> start = end_ + Z.of_nat n ->
  BlockPool.purgeFrom del_rejects start end_ self
  = (Resolved VTrue,
     BlockPool.set_persistence
       (BlockPool.purge_keys del_rejects (BlockPool._persistence self) start n) self).
Proof.
  induction n as [| n IH]; intros start end_ self He Hs.
  - replace start with end_ by lia. cbn [BlockPool.purge_keys].
    rewrite set_persistence_same. now apply purgeFrom_resolves_at_end.
  - rewrite purgeFrom_step by lia.
    rewrite (IH (start - 1) end_) by lia.
    cbn [BlockPool.purge_keys BlockPool._persistence BlockPool.set_persistence].
    reflexivity.
Qed.

(** With [end = 1], or from a [start] below [end], the recursion deletes
    down to height 2 and then meets the first test with [start = 1]. *)
Lemma purgeFrom_rejects_late n : forall start end_ self,
  1 <= end_ -> end_ = 1 \/ start < end_ -> start = 1 + Z.of_nat n ->
  BlockPool.purgeFrom del_rejects start end_ self
  = (Rejected (Error "cannot purge below height 2"),
     BlockPool.set_persistence
       (BlockPool.purge_keys del_rejects (BlockPool._persistence self) start n) self).
Proof.
  induction n as [| n IH]; intros start end_ self He Hcase Hs.
  - cbn [BlockPool.purge_keys]. rewrite set_persistence_same.
    apply purgeFrom_rejects_at_once. lia.
  - rewrite purgeFrom_step by lia.
    rewrite (IH (start - 1) end_) by lia.
    cbn [BlockPool.purge_keys BlockPool._persistence BlockPool.set_persistence].
    reflexivity.
Qed.

(** What [purge_keys] leaves in the store: a key of the range that the
    store agrees to delete is gone, every other key is as before. *)
Lemma purge_keys_kept n : forall store start key,
  (forall i, start - Z.of_nat n < i <= start ->
             key = Persistence.block_key i -> del_rejects key = true) ->
  BlockPool.purge_keys del_rejects store start n !! key = store !! key.
Proof.
  induction n as [| n IH]; intros store start key Hout; cbn [BlockPool.purge_keys];
    [reflexivity |].
  rewrite IH by (intros i Hi; apply Hout; lia).
  unfold Persistence.del.
  destruct (del_rejects (Persistence.block_key start)) eqn:Hrej; cbn [snd];
    [reflexivity |].
  apply lookup_delete_ne. intros <-.
  rewrite (Hout start) in Hrej by (lia || reflexivity). discriminate.
Qed.

Lemma purge_keys_gone n : forall store start i,
  start - Z.of_nat n < i <= start ->
  del_rejects (Persistence.block_key i) = false ->
  BlockPool.purge_keys del_rejects store start n !! Persistence.block_key i = None.
Proof.
  induction n as [| n IH]; intros store start i Hi Hrej; cbn [BlockPool.purge_keys];
    [lia |].
  destruct (decide (i = start)) as [-> | Hne].
  - rewrite purge_keys_kept.
    + unfold Persistence.del. rewrite Hrej. cbn [snd]. apply lookup_delete_eq.
    + intros j Hj Hkey. apply block_key_inj in Hkey. lia.
  - apply IH; [lia | exact Hrej].
Qed.

End PurgeFrom.

(** [purgeFrom] on any pair of integers: it rejects at once, or resolves
    after [start - end] deletions, or rejects after the deletions down to
    height 2. *)
Lemma purgeFrom_cases del_rejects start end_ self :
  ((end_ < 1 \/ start <= 1)
   /\ BlockPool.purgeFrom del_rejects start end_ self
      = (Rejected (Error "cannot purge below height 2"), self))
  \/ (2 <= end_ <= start
      /\ BlockPool.purgeFrom del_rejects start end_ self
         = (Resolved VTrue,
            BlockPool.set_persistence
              (BlockPool.purge_keys del_rejects (BlockPool._persistence self)
                 start (Z.to_nat (start - end_))) self))
  \/ (1 <= end_ /\ 2 <= start /\ (end_ = 1 \/ start < end_)
      /\ BlockPool.purgeFrom del_rejects start end_ self
         = (Rejected (Error "cannot purge below height 2"),
            BlockPool.set_persistence
              (BlockPool.purge_keys del_rejects (BlockPool._persistence self)
                 start (Z.to_nat (start - 1))) self)).
Proof.
  destruct (decide (end_ < 1 \/ start <= 1)) as [Hearly | Hlate].
  - left. split; [exact Hearly |]. now apply purgeFrom_rejects_at_once.
  - right. destruct (decide (2 <= end_ <= start)) as [Hin | Hout].
    + left. split; [exact Hin |]. apply purgeFrom_resolves; lia.
    + right. repeat split; try lia. apply purgeFrom_rejects_late; lia.
Qed.

(** C10: [purgeFrom(3, 1)] on a store with blocks at heights 2, 3 and 4.
    The keys of heights 3 and 2 are deleted; then [start] is 1, and the
    first test rejects before [start === end] is looked at. *)
Theorem purgeFrom_to_one_rejects :
  exists self',
    BlockPool.purgeFrom (fun _ => false) 3 1 stored_2_3_4
    = (Rejected (Error "cannot purge below height 2"), self')
    /\ BlockPool._persistence self' !! Persistence.block_key 3 = None
    /\ BlockPool._persistence self' !! Persistence.block_key 2 = None
    /\ BlockPool._persistence self' !! Persistence.block_key 4 = Some block_c.
Proof.
  eexists. split.
  - apply (purgeFrom_rejects_late (fun _ => false) 2); [lia | now left | reflexivity].
  - cbn [BlockPool._persistence BlockPool.set_persistence].
    repeat split; vm_compute; reflexivity.
Qed.

(** From a start at or above an end of 2 or more, on the other hand, the
    call resolves. *)
Example purgeFrom_to_two_resolves :
  exists self',
    BlockPool.purgeFrom (fun _ => false) 4 2 stored_2_3_4 = (Resolved VTrue, self')
    /\ BlockPool._persistence self' !! Persistence.block_key 4 = None
    /\ BlockPool._persistence self' !! Persistence.block_key 3 = None
    /\ BlockPool._persistence self' !! Persistence.block_key 2 = Some block_b.
Proof.
  eexists. split.
  - apply (purgeFrom_resolves (fun _ => false) 2); [lia | reflexivity].
  - cbn [BlockPool._persistence BlockPool.set_persistence].
    repeat split; vm_compute; reflexivity.
Qed.

(** ** The [_canMine] flag *)

Lemma create_counters rovers : forall (collected : gmap string Engine.count) c,
  foldl (fun collected roverName => <[roverName := Engine.Count 0]> collected)
        collected rovers !! c
  = if bool_decide (c ∈ rovers) then Some (Engine.Count 0) else collected !! c.
Proof.
  induction rovers as [| r rovers IH]; intros collected c; cbn [foldl].
  - rewrite bool_decide_eq_false_2; [reflexivity | apply not_elem_of_nil].
  - rewrite IH. destruct (decide (c ∈ rovers)) as [Hin | Hnin].
    + rewrite !bool_decide_eq_true_2; [reflexivity | now right | exact Hin].
    + rewrite (bool_decide_eq_false_2 (c ∈ rovers)) by exact Hnin.
      destruct (decide (c = r)) as [-> | Hne].
      * rewrite lookup_insert_eq, bool_decide_eq_true_2; [reflexivity | now left].
      * rewrite lookup_insert_ne by congruence.
        rewrite bool_decide_eq_false_2; [reflexivity |].
        rewrite elem_of_cons. tauto.
Qed.

Lemma create_sound known persistence :
  known <> [] -> Engine.counters_sound known (Engine.create known persistence).
Proof.
  intros Hne. unfold Engine.counters_sound, Engine.create.
  cbn [Engine._knownRovers Engine._collectedBlocks Engine._canMine].
  split; [reflexivity |]. split; [| split].
  - intros c. rewrite create_counters. destruct (decide (c ∈ known)) as [Hin | Hnin].
    + rewrite bool_decide_eq_true_2 by exact Hin. split; [eauto | intros _; exact Hin].
    + rewrite bool_decide_eq_false_2 by exact Hnin. rewrite lookup_empty.
      split; [contradiction | intros [? [=]]].
  - intros c v. rewrite create_counters. destruct (bool_decide (c ∈ known)).
    + intros [= <-]. exists 0. split; [reflexivity | lia].
    + rewrite lookup_empty. discriminate.
  - right. destruct known as [| c known]; [contradiction |].
    exists c. split; [now left |].
    rewrite create_counters, bool_decide_eq_true_2; [reflexivity | now left].
Qed.

Lemma same_counters_sound known self self' :
  Engine.same_counters self self' ->
  Engine.counters_sound known self -> Engine.counters_sound known self'.
Proof.
  intros (Hk & Hc & Hm). unfold Engine.counters_sound. now rewrite Hk, Hc, Hm.
Qed.

Lemma storeHeight_same_counters msg self :
  Engine.same_counters self (snd (Engine.storeHeight msg self)).
Proof.
  unfold Engine.storeHeight, Engine.storeHeight_body, async, try_catch, mbind, M_bind,
    Engine.store_get, Engine.store_put, gets, modify, lift, await, mret, M_ret, throw,
    Persistence.get, Persistence.put, BN.lt_boolean, Engine.same_counters.
  repeat case_match; simplify_eq; cbn; auto.
Qed.

Lemma count_tip_keeps_rovers blockchain self :
  Engine._knownRovers (Engine.count_tip blockchain self) = Engine._knownRovers self.
Proof. unfold Engine.count_tip. now destruct (_ && _). Qed.

Lemma count_tip_counters blockchain self :
  Engine._collectedBlocks (Engine.count_tip blockchain self)
  = <[blockchain := Engine.incr (Engine._collectedBlocks self !! blockchain)]>
      (Engine._collectedBlocks self).
Proof. unfold Engine.count_tip. now destruct (_ && _). Qed.

Lemma count_tip_canMine blockchain self :
  Engine._canMine (Engine.count_tip blockchain self)
  = Engine._canMine self
    || Engine.all_collected
         (<[blockchain := Engine.incr (Engine._collectedBlocks self !! blockchain)]>
            (Engine._collectedBlocks self)).
Proof.
  unfold Engine.count_tip.
  cbn [Engine._canMine Engine._collectedBlocks Engine.set_collectedBlocks].
  destruct (Engine._canMine self) eqn:Hm; cbn [negb andb orb].
  - cbn. exact Hm.
  - destruct (Engine.all_collected _); cbn; [reflexivity | exact Hm].
Qed.

Lemma collectBlock_same_as_count_tip rovers blockchain m self :
  Engine.same_counters (Engine.count_tip blockchain self)
                (snd (Engine.collectBlock rovers blockchain m self)).
Proof.
  unfold Engine.collectBlock. destruct (_ && _); cbn; repeat split.
Qed.

Lemma count_tip_sound known blockchain self :
  blockchain ∈ known ->
  Engine.counters_sound known self ->
  Engine.counters_sound known (Engine.count_tip blockchain self).
Proof.
  intros Hin (Hk & Hdom & Hnum & Hzero). unfold Engine.counters_sound.
  rewrite count_tip_keeps_rovers, count_tip_counters, count_tip_canMine.
  destruct (proj1 (Hdom blockchain) Hin) as [v Hv].
  destruct (Hnum _ _ Hv) as (n & -> & Hn).
  rewrite Hv. cbn [Engine.incr].
  set (collected := <[blockchain := Engine.Count (n + 1)]> (Engine._collectedBlocks self)).
  assert (Hnum' : forall c v, collected !! c = Some v -> exists k, v = Engine.Count k /\ 0 <= k).
  { intros c v. subst collected. destruct (decide (c = blockchain)) as [-> | Hne].
    - rewrite lookup_insert_eq. intros [= <-]. exists (n + 1). split; [reflexivity | lia].
    - rewrite lookup_insert_ne by congruence. apply Hnum. }
  assert (Hdom' : forall c, c ∈ known <-> is_Some (collected !! c)).
  { intros c. subst collected. destruct (decide (c = blockchain)) as [-> | Hne].
    - rewrite lookup_insert_eq. split; [eauto | intros _; exact Hin].
    - rewrite lookup_insert_ne by congruence. apply Hdom. }
  split; [exact Hk |]. split; [exact Hdom' |]. split; [exact Hnum' |].
  destruct (Engine._canMine self); [now left |]. cbn [orb].
  unfold Engine.all_collected. case_bool_decide as Hall; [now left |].
  right. apply map_not_Forall in Hall as (c & v & Hc & Hv0); [| apply _].
  destruct (Hnum' _ _ Hc) as (k & -> & Hk0). cbn in Hv0.
  exists c. split; [apply Hdom'; eauto |].
  rewrite Hc. do 2 f_equal. lia.
Qed.

Lemma handle_sound known self ev :
  match ev with
  | Engine.CollectBlock _ blockchain _ => blockchain ∈ known
  | _ => True
  end ->
  Engine.counters_sound known self ->
  Engine.counters_sound known (Engine.handle self ev).
Proof.
  intros Hev Hinv. destruct ev; cbn [Engine.handle];
    try (eapply same_counters_sound; [| exact Hinv]; repeat split; fail).
  - eapply same_counters_sound; [apply collectBlock_same_as_count_tip |].
    now apply count_tip_sound.
  - eapply same_counters_sound; [apply storeHeight_same_counters | exact Hinv].
  - eapply same_counters_sound; [| exact Hinv].
    unfold Engine.stopMining. destruct (Engine.is_process _); repeat split.
  - eapply same_counters_sound; [| exact Hinv].
    unfold Engine.restartMining, Engine.stopMining.
    destruct (Engine.is_process _); repeat split.
  - eapply same_counters_sound; [| exact Hinv].
    unfold Engine._handleWorkerError. destruct (Engine.is_process _); repeat split.
  - eapply same_counters_sound; [| exact Hinv].
    unfold Engine._handleWorkerExit. repeat case_match; repeat split.
Qed.

Lemma run_sound known evs : forall self,
  Engine.tips_known known evs ->
  Engine.counters_sound known self ->
  Engine.counters_sound known (Engine.run self evs).
Proof.
  induction evs as [| ev evs IH]; intros self Hevs Hinv; [exact Hinv |].
  apply Forall_cons in Hevs as [Hev Hevs].
  cbn [Engine.run foldl]. apply IH; [exact Hevs |].
  now apply handle_sound.
Qed.

(** No handler assigns [false] to [_canMine]. *)
Lemma handle_keeps_canMine self ev :
  Engine._canMine self = true -> Engine._canMine (Engine.handle self ev) = true.
Proof.
  intros Hm. destruct ev; cbn [Engine.handle]; try exact Hm.
  - destruct (collectBlock_same_as_count_tip rovers blockchain m self) as (_ & _ & ->).
    rewrite count_tip_canMine, Hm. reflexivity.
  - destruct (storeHeight_same_counters msg self) as (_ & _ & ->). exact Hm.
  - unfold Engine.stopMining. now destruct (Engine.is_process _).
  - unfold Engine.restartMining, Engine.stopMining. now destruct (Engine.is_process _).
  - unfold Engine._handleWorkerError. now destruct (Engine.is_process _).
  - unfold Engine._handleWorkerExit. now repeat case_match.
Qed.

Lemma run_keeps_canMine evs : forall self,
  Engine._canMine self = true -> Engine._canMine (Engine.run self evs) = true.
Proof.
  induction evs as [| ev evs IH]; intros self Hm; [exact Hm |].
  cbn [Engine.run foldl]. apply IH. now apply handle_keeps_canMine.
Qed.

(** C7: in an engine built for a non-empty list of known rovers and fed
    tips of known chains, every state in which all known chains have a
    counter of at least 1 has [_canMine] set; and once [_canMine] is set,
    no sequence of events clears it. *)
Theorem canMine_set_and_kept known persistence evs evs' :
  known <> [] ->
  Engine.tips_known known evs ->
  let self := Engine.run (Engine.create known persistence) evs in
  (Engine.all_known_collected self -> Engine._canMine self = true)
  /\ (Engine._canMine self = true -> Engine._canMine (Engine.run self evs') = true).
Proof.
  intros Hne Hevs self. split.
  - intros Hall.
    destruct (run_sound known evs (Engine.create known persistence) Hevs
                (create_sound known persistence Hne)) as (Hk & _ & _ & [Hm | Hzero]).
    + exact Hm.
    + destruct Hzero as (c & Hc & Hc0). fold self in Hk, Hc0.
      destruct (Hall c) as (n & Hn & Hn1); [now rewrite Hk |].
      rewrite Hc0 in Hn. injection Hn as <-. lia.
  - apply run_keeps_canMine.
Qed.

Lemma one_tip_each_known : Engine.tips_known ["btc"; "eth"] one_tip_each.
Proof.
  unfold Engine.tips_known, one_tip_each.
  repeat constructor; set_solver.
Qed.

Lemma one_tip_each_collected :
  Engine.all_known_collected (Engine.run engine_a one_tip_each).
Proof.
  intros c Hc. exists 1. split; [| lia].
  change (Engine._knownRovers (Engine.run engine_a one_tip_each))
    with ["btc"; "eth"] in Hc.
  apply elem_of_cons in Hc as [-> | Hc]; [vm_compute; reflexivity |].
  apply elem_of_cons in Hc as [-> | Hc]; [vm_compute; reflexivity |].
  inversion Hc.
Qed.

Lemma canMine_set_and_kept_witness :
  let self := Engine.run engine_a one_tip_each in
  Engine.all_known_collected self
  /\ Engine._canMine self = true
  /\ Engine._canMine (Engine.run self later_events) = true.
Proof.
  destruct (canMine_set_and_kept ["btc"; "eth"]
              (<[Persistence.block_key 1 := block_a]> ∅) one_tip_each later_events)
    as [Hset Hkept].
  - discriminate.
  - exact one_tip_each_known.
  - pose proof (Hset one_tip_each_collected) as Hm.
    split; [exact one_tip_each_collected |]. split; [exact Hm |].
    exact (Hkept Hm).
Defined.

(** The flag is raised by the tip that completes the set, not before. *)
Example canMine_after_each_tip :
  Engine._canMine (Engine.run engine_a (take 2 one_tip_each)) = false
  /\ Engine._canMine (Engine.run engine_a one_tip_each) = true
  /\ Engine._canMine (Engine.run (Engine.run engine_a one_tip_each) later_events) = true.
Proof. repeat split; vm_compute; reflexivity. Qed.

(** The tips have to come from known chains: the counter of any other
    chain is NaN from its first tip on, and [_canMine] stays false however
    many tips the known chains deliver. *)
Example stray_tip_blocks_canMine :
  let self := Engine.run engine_a stray_tip_first in
  Engine._collectedBlocks self !! "btc" = Some (Engine.Count 1)
  /\ Engine._collectedBlocks self !! "eth" = Some (Engine.Count 1)
  /\ Engine._collectedBlocks self !! "xyz" = Some Engine.CountNaN
  /\ Engine._canMine self = false.
Proof. repeat split; vm_compute; reflexivity. Qed.

(** ** Distance *)

Lemma splitEvery_single {A} (l : list A) :
  l <> [] -> (length l <= 32)%nat -> Miner.splitEvery 32 l = [l].
Proof.
  intros Hne Hlen. unfold Miner.splitEvery.
  destruct l as [| x l]; [contradiction |].
  change (length (x :: l)) with (S (length l)).
  cbn [Miner.splitEvery_slices].
  rewrite take_ge by exact Hlen. rewrite drop_ge by exact Hlen.
  now destruct (length l).
Qed.

Lemma split_length s : length (Miner.split s) = String.length s.
Proof.
  unfold Miner.split. rewrite length_map.
  induction s as [| c s IH]; [reflexivity |]. cbn. now rewrite IH.
Qed.


(** A string of up to 32 characters is one chunk, which [distance]
    compares with itself: the result is the floor of
    [(0 + (1 - a / (b * b))) * 10^15] in doubles, with [a] the dot product
    of the character codes with themselves and [b] their norm. *)
Lemma distance_self_one_chunk s :
  s <> "" -> (String.length s <= 32)%nat ->
  Miner.distance s s
  = Ok (Miner.Math_floor
          (PrimFloat.mul
             (PrimFloat.add (Miner.number 0)
                (PrimFloat.sub (Miner.number 1)
                   (PrimFloat.div (Miner.dot (Miner.split s) (Miner.split s))
                      (PrimFloat.mul (Miner.l2norm (Miner.split s))
                                     (Miner.l2norm (Miner.split s))))))
             (Miner.number 1000000000000000))).
Proof.
  intros Hne Hlen. unfold Miner.distance.
  rewrite splitEvery_single.
  - cbn [reverse rev_append zip zip_with foldl mbind outcome_bind].
    unfold Miner.dist, Miner.similarity.
    rewrite Nat.eqb_refl. cbn [negb].
    destruct (Nat.eqb_spec (length (Miner.split s)) 0) as [H0 | _].
    + rewrite split_length in H0. destruct s; [contradiction | discriminate].
    + reflexivity.
  - intros H. apply (f_equal length) in H. rewrite split_length in H.
    destruct s; [contradiction | discriminate].
  - now rewrite split_length.
Qed.




(** Of the 256 strings of two hexadecimal digits, 80 have the distance -1
    to themselves, and the other 176 have 0. *)
Lemma distance_self_hex_pairs :
  length hex_pairs = 256%nat
  /\ length (List.filter (fun s => returns (-1)%float (Miner.distance s s)) hex_pairs)
     = 80%nat
  /\ length (List.filter (fun s => returns (Miner.number 0) (Miner.distance s s)) hex_pairs)
     = 176%nat.
Proof. repeat split; vm_compute; reflexivity. Qed.

(** Beyond 32 characters the chunks are compared crosswise: the first
    chunk of [two_chunks] against its second one and back. *)
Lemma distance_self_two_chunks :
  Miner.distance two_chunks two_chunks = Ok 153846153846155%float.
Proof. vm_compute. reflexivity. Qed.

(** A string of 33 characters has chunks of 32 and of 1 character, and
    the similarity of the two throws. *)
Example distance_self_thirty_three :
  Miner.distance thirty_three thirty_three
  = Throw (Error
      "cosine-similarity()::invalid input argument. Input arrays must have the same length.").
Proof. vm_compute. reflexivity. Qed.

(** The norm of [0] is 0, so the similarity of NUL with itself is 0/0. *)
Example distance_self_NUL :
  returns (Miner.number 0) (Miner.distance (String NUL EmptyString) (String NUL EmptyString))
  = false
  /\ exists f, Miner.distance (String NUL EmptyString) (String NUL EmptyString) = Ok f
               /\ PrimFloat.is_nan f = true.
Proof. split; [vm_compute; reflexivity |]. eexists. split; vm_compute; reflexivity. Qed.

(** * Further properties *)

(** ** Difficulty *)

Lemma bind_Ok {A B} (c : outcome A) (f : A -> outcome B) (b : B) :
  (a ← c; f a) = Ok b -> exists a, c = Ok a /\ f a = Ok b.
Proof. destruct c as [a | e]; [eauto | discriminate]. Qed.

Lemma getDiff_lower_bound now prev_ts prev_distance min_diff new_block_count r :
  Miner.getDiff now prev_ts prev_distance min_diff new_block_count = Ok r ->
  BN.toZ min_diff <= r.
Proof.
  unfold Miner.getDiff. intros H.
  repeat (apply bind_Ok in H as (? & ? & H)).
  match goal with Hm : BN.new min_diff 16 = Ok ?m |- _ =>
    apply BN_new_toZ in Hm; rewrite <- Hm end.
  unfold BN.lt in H.
  match type of H with (if ?a <? ?b then _ else _) = _ =>
    destruct (Z.ltb_spec a b); injection H as <-; lia end.
Qed.

(** [getDiff] never returns less than the minimal difficulty it is given,
    whatever the other arguments are. *)
Theorem getDiff_at_least_minimum now prev_ts prev_distance min_diff new_block_count r :
  Miner.getDiff now prev_ts prev_distance min_diff new_block_count = Ok r ->
  BN.toZ min_diff <= r.
Proof. apply getDiff_lower_bound. Qed.

Lemma getDiff_at_least_minimum_witness :
  Miner.getDiff (BN.JsNumber 1000) (BN.JsNumber 100) (BN.JsNumber 1480)
                (BN.JsNumber 1000) (BN.JsNumber 0) = Ok 1000
  /\ BN.toZ (BN.JsNumber 1000) <= 1000.
Proof.
  split; [reflexivity |].
  apply (getDiff_at_least_minimum (BN.JsNumber 1000) (BN.JsNumber 100)
           (BN.JsNumber 1480) (BN.JsNumber 1000) (BN.JsNumber 0) 1000).
  reflexivity.
Defined.

(** When the clock has not gone back, one block changes the difficulty by
    a factor between -99 and 1 of the 148th part of the previous distance,
    before the minimum is applied. *)
Theorem getDiff_adjustment_bounded now prev_ts prev_distance min_diff new_block_count :
  Z.abs now < BN.MAX_SAFE -> Z.abs prev_ts < BN.MAX_SAFE ->
  Z.abs prev_distance < BN.MAX_SAFE -> Z.abs min_diff < BN.MAX_SAFE ->
  Z.abs new_block_count < BN.MAX_SAFE ->
  prev_ts <= now ->
  exists x,
    -99 <= x <= 1
    /\ Miner.getDiff (BN.JsNumber now) (BN.JsNumber prev_ts) (BN.JsNumber prev_distance)
                     (BN.JsNumber min_diff) (BN.JsNumber new_block_count)
       = Ok (Z.max (prev_distance + x * Z.quot prev_distance 148) min_diff).
Proof.
  intros Hn Hp Hd Hm Hc Hle.
  rewrite getDiff_forward by assumption.
  unfold Miner.get_diff_spec.
  set (elapsed := now - prev_ts).
  set (bonus := elapsed + (elapsed - 4) * new_block_count).
  set (e := if 0 <? bonus then bonus else elapsed).
  assert (He : 0 <= e).
  { subst e. destruct (Z.ltb_spec 0 bonus); subst elapsed; lia. }
  exists (Z.max (1 - e / 6) (-99)). split; [| reflexivity].
  pose proof (Z.div_pos e 6 He ltac:(lia)). lia.
Qed.

Lemma getDiff_adjustment_bounded_witness :
  exists x,
    -99 <= x <= 1
    /\ Miner.getDiff (BN.JsNumber 700) (BN.JsNumber 100) (BN.JsNumber 14800)
                     (BN.JsNumber 0) (BN.JsNumber 0)
       = Ok (Z.max (14800 + x * Z.quot 14800 148) 0).
Proof.
  apply (getDiff_adjustment_bounded 700 100 14800 0 0); reflexivity || (simpl; lia).
Defined.

(** Without new child blocks the time since the previous block decides:
    under 6 seconds the difficulty goes up by the 148th part of the previous
    distance, from 6 to 11 seconds it stays, from 12 seconds on it does not
    rise (always with the minimum applied). *)
Theorem getDiff_by_elapsed_time now prev_ts prev_distance min_diff :
  Z.abs now < BN.MAX_SAFE -> Z.abs prev_ts < BN.MAX_SAFE ->
  0 <= prev_distance < BN.MAX_SAFE -> Z.abs min_diff < BN.MAX_SAFE ->
  prev_ts <= now ->
  exists r,
    Miner.getDiff (BN.JsNumber now) (BN.JsNumber prev_ts) (BN.JsNumber prev_distance)
                  (BN.JsNumber min_diff) (BN.JsNumber 0) = Ok r
    /\ (now - prev_ts < 6 ->
        r = Z.max (prev_distance + Z.quot prev_distance 148) min_diff)
    /\ (6 <= now - prev_ts < 12 -> r = Z.max prev_distance min_diff)
    /\ (12 <= now - prev_ts -> r <= Z.max prev_distance min_diff).
Proof.
  intros Hn Hp Hd Hm Hle.
  rewrite getDiff_forward by (assumption || reflexivity || lia).
  eexists. split; [reflexivity |].
  unfold Miner.get_diff_spec.
  replace (now - prev_ts + (now - prev_ts - 4) * 0) with (now - prev_ts) by lia.
  set (elapsed := now - prev_ts).
  assert (He : (if 0 <? elapsed then elapsed else elapsed) = elapsed)
    by now destruct (0 <? elapsed).
  rewrite He.
  pose proof (Z.quot_pos prev_distance 148 ltac:(lia) ltac:(lia)) as Hy.
  repeat split.
  - intros Hlt. rewrite (Z.div_small elapsed 6) by lia.
    replace (Z.max (1 - 0) (-99)) with 1 by lia. f_equal. lia.
  - intros Hmid. replace (elapsed / 6) with 1.
    + replace (Z.max (1 - 1) (-99)) with 0 by lia. f_equal. lia.
    + apply (Z.div_unique elapsed 6 1 (elapsed - 6)); lia.
  - intros Hlate.
    assert (2 <= elapsed / 6) by (apply Z.div_le_lower_bound; lia).
    assert (Z.max (1 - elapsed / 6) (-99) <= 0) by lia.
    nia.
Qed.

Lemma getDiff_by_elapsed_time_witness :
  exists r,
    Miner.getDiff (BN.JsNumber 108) (BN.JsNumber 100) (BN.JsNumber 14800)
                  (BN.JsNumber 5) (BN.JsNumber 0) = Ok r
    /\ (108 - 100 < 6 -> r = Z.max (14800 + Z.quot 14800 148) 5)
    /\ (6 <= 108 - 100 < 12 -> r = Z.max 14800 5)
    /\ (12 <= 108 - 100 -> r <= Z.max 14800 5).
Proof.
  apply (getDiff_by_elapsed_time 108 100 14800 5); reflexivity || (simpl; lia) || idtac.
  split; [lia | reflexivity].
Defined.

Lemma getExpFactorDiff_value difficulty height :
  Z.abs height < BN.MAX_SAFE ->
  exists r,
    Miner.getExpFactorDiff difficulty (BN.JsNumber height) = Ok r
    /\ difficulty <= r
    /\ (height + 1 < 198000000 -> r = difficulty)
    /\ (198000000 <= height + 1 ->
        r = difficulty + 2 ^ ((height + 1) / 66000000 - 2)).
Proof.
  intros Hh. unfold Miner.getExpFactorDiff.
  rewrite !BN_new_number by (assumption || reflexivity).
  cbn [mbind outcome_bind]. unfold BN.div, BN.add, BN.sub, BN.gt, BN.pow.
  cbn [Z.eqb mbind outcome_bind].
  destruct (Z.ltb_spec 2 ((height + 1) ÷ 66000000)) as [Hbig | Hsmall].
  - assert (Hpos : 0 <= height + 1).
    { destruct (Z.le_gt_cases 0 (height + 1)); [assumption |].
      pose proof (Z.quot_opp_l (height + 1) 66000000 ltac:(lia)).
      pose proof (Z.quot_pos (- (height + 1)) 66000000 ltac:(lia) ltac:(lia)). lia. }
    rewrite Z.quot_div_nonneg in * by lia.
    eexists. split; [reflexivity |].
    assert (0 < 2 ^ ((height + 1) / 66000000 - 2)) by (apply Z.pow_pos_nonneg; lia).
    split; [lia |]. split; [| intros _; reflexivity].
    intros Hlow. assert ((height + 1) / 66000000 < 3)
      by (apply Z.div_lt_upper_bound; lia). lia.
  - eexists. split; [reflexivity |]. split; [lia |]. split; [intros _; reflexivity |].
    intros Hhigh. exfalso.
    rewrite Z.quot_div_nonneg in Hsmall by lia.
    assert (3 <= (height + 1) / 66000000) by (apply Z.div_le_lower_bound; lia). lia.
Qed.

(** [getExpFactorDiff] never lowers the difficulty: below parent height
    197999999 it returns it as it is, from there on it adds 2 to the power
    of the number of 66000000-block periods minus 2. *)
Theorem getExpFactorDiff_periods difficulty height :
  Z.abs height < BN.MAX_SAFE ->
  exists r,
    Miner.getExpFactorDiff difficulty (BN.JsNumber height) = Ok r
    /\ difficulty <= r
    /\ (height + 1 < 198000000 -> r = difficulty)
    /\ (198000000 <= height + 1 ->
        r = difficulty + 2 ^ ((height + 1) / 66000000 - 2)).
Proof. apply getExpFactorDiff_value. Qed.

Lemma getExpFactorDiff_periods_witness :
  exists r,
    Miner.getExpFactorDiff 1000 (BN.JsNumber 263999999) = Ok r
    /\ 1000 <= r
    /\ (263999999 + 1 < 198000000 -> r = 1000)
    /\ (198000000 <= 263999999 + 1 ->
        r = 1000 + 2 ^ ((263999999 + 1) / 66000000 - 2)).
Proof.
  apply (getExpFactorDiff_periods 1000 263999999). reflexivity.
Defined.

(** The difficulty prepared for a new block, [getNewPreExpDifficulty]
    followed by [getExpFactorDiff], is never below the minimum
    difficulty. *)
Theorem new_difficulty_at_least_minimum now prev_ts prev_distance new_block_count
        height d r :
  Z.abs height < BN.MAX_SAFE ->
  Miner.getNewPreExpDifficulty now prev_ts prev_distance new_block_count = Ok d ->
  Miner.getExpFactorDiff d (BN.JsNumber height) = Ok r ->
  11801972029393 <= r.
Proof.
  intros Hh Hd Hr. unfold Miner.getNewPreExpDifficulty in Hd.
  apply bind_Ok in Hd as (m & Hm & Hd).
  injection Hm as <-.
  apply getDiff_lower_bound in Hd. cbn [BN.toZ] in Hd.
  destruct (getExpFactorDiff_value d height Hh) as (r' & Hr' & Hge & _).
  rewrite Hr in Hr'. injection Hr' as <-. lia.
Qed.

Lemma new_difficulty_at_least_minimum_witness :
  Miner.getNewPreExpDifficulty (BN.JsNumber 1000) (BN.JsNumber 100)
                               (BN.JsNumber 1480) (BN.JsNumber 0)
  = Ok 11801972029393
  /\ 11801972029393 <= 11801972029393.
Proof.
  split; [reflexivity |].
  apply (new_difficulty_at_least_minimum (BN.JsNumber 1000) (BN.JsNumber 100)
           (BN.JsNumber 1480) (BN.JsNumber 0) 5 11801972029393 11801972029393);
    reflexivity.
Defined.

(** ** Merkle root, chain root and work *)

Section HashingFacts.
Variable blake2bl : string -> string.
Variable hexToBN : string -> Z.

(** The root of a list can be computed in two parts: the root of the first
    part is the [prev] argument for the second. *)
Theorem createMerkleRoot_resume list1 list2 prev :
  Miner.createMerkleRoot blake2bl (list1 ++ list2) prev
  = Miner.createMerkleRoot blake2bl list2
      (Miner.createMerkleRoot blake2bl list1 prev).
Proof.
  revert prev. induction list1 as [| item list1 IH]; intros prev; [reflexivity |].
  cbn [app Miner.createMerkleRoot]. apply IH.
Qed.

(** The root of a list that is not empty is the hash of the first item,
    extended item by item with [blake2bl(root + item)]; no [prev] makes the
    root of the empty list undefined. *)
Theorem createMerkleRoot_fold item list :
  Miner.createMerkleRoot blake2bl (item :: list) None
  = Some (foldl (fun root it => blake2bl (root +:+ it)) (blake2bl item) list)
  /\ Miner.createMerkleRoot blake2bl [] None = None.
Proof.
  split; [| reflexivity]. cbn [Miner.createMerkleRoot].
  generalize (blake2bl item) as root.
  induction list as [| it list IH]; intros root; [reflexivity |].
  cbn [Miner.createMerkleRoot foldl]. apply IH.
Qed.

Lemma xor_fold_permutation (values values' : list Z) (start : Z) :
  values ≡ₚ values' ->
  foldl (fun all v => BN.xor all v) start values
  = foldl (fun all v => BN.xor all v) start values'.
Proof.
  intros Hperm. revert start.
  induction Hperm as [| v l l' _ IH | v w l | l l' l'' _ IH1 _ IH2]; intros start.
  - reflexivity.
  - cbn [foldl]. apply IH.
  - cbn [foldl]. unfold BN.xor.
    assert (E : Z.lxor (Z.lxor start w) v = Z.lxor (Z.lxor start v) w)
      by (rewrite !Z.lxor_assoc; f_equal; apply Z.lxor_comm).
    first [now rewrite E | now rewrite <- E].
  - now rewrite IH1.
Qed.

Lemma getChildrenRootHash_as_values hashes :
  Miner.getChildrenRootHash hexToBN hashes
  = foldl (fun all v => BN.xor all v) 0 (map hexToBN hashes).
Proof.
  unfold Miner.getChildrenRootHash. generalize 0 as start.
  induction hashes as [| h hashes IH]; intros start; [reflexivity |].
  cbn [foldl map]. apply IH.
Qed.

(** The chain root does not depend on the order of the hashes. *)
Lemma getChildrenRootHash_permutation hashes hashes' :
  hashes ≡ₚ hashes' ->
  Miner.getChildrenRootHash hexToBN hashes = Miner.getChildrenRootHash hexToBN hashes'.
Proof.
  intros Hperm. rewrite !getChildrenRootHash_as_values.
  apply xor_fold_permutation. now apply Permutation_map.
Qed.

(** A hash that occurs twice drops out of the chain root. *)
Theorem getChildrenRootHash_twice hashes h :
  Miner.getChildrenRootHash hexToBN (h :: h :: hashes)
  = Miner.getChildrenRootHash hexToBN hashes.
Proof.
  unfold Miner.getChildrenRootHash. cbn [foldl]. unfold BN.xor at 2 3.
  now rewrite Z.lxor_0_l, Z.lxor_nilpotent.
Qed.

Lemma blockchainMapToList_concat (headersMap : list (string * list Miner.BlockchainHeader)) :
  Miner.blockchainMapToList headersMap = concat (map snd headersMap).
Proof.
  unfold Miner.blockchainMapToList.
  assert (Hgen : forall (lists : list (list Miner.BlockchainHeader)) acc,
            foldl (fun acc curr => acc ++ curr) acc lists = acc ++ concat lists).
  { induction lists as [| l lists IH]; intros acc; cbn [foldl concat].
    - now rewrite app_nil_r.
    - rewrite IH. now rewrite app_assoc. }
  now rewrite Hgen.
Qed.

(** The work depends on the child headers as a multiset: two header maps
    that list the same headers, in any order and under any keys, give the
    same work for the same previous hash. *)
Theorem prepareWork_permutation previousBlockHash
        (headers headers' : list (string * list Miner.BlockchainHeader)) :
  concat (map snd headers) ≡ₚ concat (map snd headers') ->
  Miner.prepareWork blake2bl hexToBN previousBlockHash headers
  = Miner.prepareWork blake2bl hexToBN previousBlockHash headers'.
Proof.
  intros Hperm. unfold Miner.prepareWork. do 3 f_equal.
  apply getChildrenRootHash_permutation.
  unfold Miner.getChildrenBlocksHashes. rewrite !blockchainMapToList_concat.
  now apply Permutation_map.
Qed.

End HashingFacts.

Lemma prepareWork_permutation_witness :
  Miner.prepareWork toy_blake2bl toy_hexToBN "cc"
                    [("btcList", [header_1]); ("ethList", [header_2])]
  = Miner.prepareWork toy_blake2bl toy_hexToBN "cc"
                      [("btcList", [header_2; header_1])].
Proof.
  apply (prepareWork_permutation toy_blake2bl toy_hexToBN "cc"
           [("btcList", [header_1]); ("ethList", [header_2])]
           [("btcList", [header_2; header_1])]).
  simpl. apply perm_swap.
Defined.

(** ** New child blocks *)

Lemma difference_from_elem first : forall toFilterOut x,
  x ∈ Miner.difference_from toFilterOut first <-> x ∈ first /\ x ∉ toFilterOut.
Proof.
  induction first as [| y first IH]; intros toFilterOut x; cbn [Miner.difference_from].
  - rewrite elem_of_nil. tauto.
  - case_bool_decide as Hy.
    + rewrite IH, elem_of_cons. split; [tauto |].
      intros [[-> | Hin] Hout]; [contradiction | tauto].
    + rewrite elem_of_cons, IH, !elem_of_cons. split.
      * intros [-> | [Hin Hout]]; [tauto |]. split; [tauto |]. tauto.
      * intros [[-> | Hin] Hout]; [tauto |].
        destruct (decide (x = y)) as [-> | Hne]; [tauto |]. right. tauto.
Qed.

Lemma difference_from_NoDup first : forall toFilterOut,
  NoDup (Miner.difference_from toFilterOut first).
Proof.
  induction first as [| y first IH]; intros toFilterOut; cbn [Miner.difference_from].
  - constructor.
  - case_bool_decide as Hy; [apply IH |].
    constructor; [| apply IH].
    rewrite difference_from_elem, elem_of_cons. tauto.
Qed.

(** [getNewBlockCount] is the number of distinct hashes of the current
    headers that the previous headers do not have; it is 0 exactly when
    every current hash is among the previous ones. *)
Theorem getNewBlockCount_counts_new previous current :
  Miner.getNewBlockCount previous current
  = size (list_to_set (Miner.headersToHashes current)
          ∖ list_to_set (Miner.headersToHashes previous) : gset string)
  /\ (Miner.getNewBlockCount previous current = 0%nat
      <-> forall h, h ∈ Miner.headersToHashes current
                    -> h ∈ Miner.headersToHashes previous).
Proof.
  unfold Miner.getNewBlockCount, Miner.difference.
  set (cur := Miner.headersToHashes current).
  set (prev := Miner.headersToHashes previous).
  assert (Hset : list_to_set (Miner.difference_from prev cur)
                 =@{gset string} list_to_set cur ∖ list_to_set prev).
  { apply set_eq. intros x.
    rewrite elem_of_list_to_set, difference_from_elem, elem_of_difference,
      !elem_of_list_to_set. reflexivity. }
  split.
  - rewrite <- Hset. symmetry. apply size_list_to_set, difference_from_NoDup.
  - rewrite length_zero_iff_nil. split.
    + intros Hnil h Hh. destruct (decide (h ∈ prev)) as [Hin | Hout]; [exact Hin |].
      assert (Hd : h ∈ Miner.difference_from prev cur)
        by (apply difference_from_elem; tauto).
      rewrite Hnil in Hd. inversion Hd.
    + intros Hall. destruct (Miner.difference_from prev cur) as [| x l] eqn:Hd;
        [reflexivity |].
      assert (Hx : x ∈ Miner.difference_from prev cur) by (rewrite Hd; left).
      apply difference_from_elem in Hx as [Hin Hout]. now apply Hall in Hin.
Qed.

(** ** More on the mining loop *)

Lemma refresh_not_back calc now st :
  fst st <= fst (Miner.refresh calc now st).
Proof.
  destruct st as [ts difficulty]. unfold Miner.refresh.
  destruct calc as [c |]; [| reflexivity].
  destruct (Z.ltb_spec ts now); cbn [fst]; lia.
Qed.

Lemma in_effect_not_back calc env : forall st i,
  fst st <= fst (Miner.in_effect calc st env i).
Proof.
  induction env as [| tk env IH]; intros st i; cbn [Miner.in_effect]; [lia |].
  pose proof (refresh_not_back calc (Miner.tk_nowSeconds tk) st).
  destruct i as [| i]; [assumption |].
  specialize (IH (Miner.refresh calc (Miner.tk_nowSeconds tk) st) i). lia.
Qed.

Lemma in_effect_without_calculator env : forall st i,
  Miner.in_effect None st env i = st.
Proof.
  induction env as [| tk env IH]; intros [ts difficulty] i; cbn [Miner.in_effect];
    [reflexivity |].
  destruct i as [| i]; [reflexivity |]. apply IH.
Qed.

(** The timestamp of a solution is never before the timestamp [mine] was
    started with; without a difficulty calculator the solution carries the
    timestamp and the threshold it was started with. *)
Theorem mine_solution_timestamp tsStart env currentTimestamp threshold calc res :
  Miner.mine tsStart env currentTimestamp threshold calc = Miner.Solved res ->
  currentTimestamp <= Miner.sol_timestamp res
  /\ (calc = None ->
      Miner.sol_timestamp res = currentTimestamp
      /\ Miner.sol_difficulty res = threshold).
Proof.
  unfold Miner.mine. intros H.
  apply mine_loop_solved in H as (i & tk & _ & _ & _ & Heff & _).
  split.
  - pose proof (in_effect_not_back calc env (currentTimestamp, threshold) i) as Hle.
    rewrite <- Heff in Hle. exact Hle.
  - intros ->. rewrite in_effect_without_calculator in Heff.
    now injection Heff as -> ->.
Qed.

Lemma mine_solution_timestamp_witness :
  exists res,
    Miner.mine 999 two_passes 10 (BN.JsNumber 100) None = Miner.Solved res
    /\ 10 <= Miner.sol_timestamp res
    /\ Miner.sol_timestamp res = 10
    /\ Miner.sol_difficulty res = BN.JsNumber 100.
Proof.
  eexists. split; [reflexivity |].
  destruct (mine_solution_timestamp 999 two_passes 10 (BN.JsNumber 100) None _ eq_refl)
    as [Hle Hnone].
  split; [exact Hle |]. exact (Hnone eq_refl).
Defined.

Lemma mine_loop_first env : forall tsStart maxEnd calc ts difficulty iterations res,
  Miner.mine_loop env tsStart maxEnd calc ts difficulty iterations = Miner.Solved res ->
  exists i : nat,
    Miner.sol_iterations res = iterations + Z.of_nat i + 1
    /\ forall (j : nat) (tk : Miner.tick),
         (j <= i)%nat -> env !! j = Some tk ->
         Miner.tk_now tk <= maxEnd
         /\ ((j < i)%nat ->
             Miner.tk_result tk
             <= BN.toZ (snd (Miner.in_effect calc (ts, difficulty) env j))).
Proof.
  induction env as [| tk0 env IH]; intros tsStart maxEnd calc ts difficulty iterations res.
  - discriminate.
  - cbn [Miner.mine_loop].
    destruct (Z.ltb_spec maxEnd (Miner.tk_now tk0)) as [| Hnow]; [discriminate |].
    destruct (Miner.refresh calc (Miner.tk_nowSeconds tk0) (ts, difficulty))
      as [ts' difficulty'] eqn:Hrefresh.
    destruct (BN.new (BN.JsNumber (Miner.tk_result tk0)) 16) as [r | e] eqn:Hr;
      [| discriminate].
    destruct (BN.new difficulty' 16) as [d | e] eqn:Hd; [| discriminate].
    apply BN_new_toZ in Hr, Hd. cbn in Hr. subst r d.
    destruct (BN.gt _ _) eqn:Hgt.
    + intros [= <-]. exists 0%nat. split; [cbn; lia |].
      intros j tk Hj Hlook. assert (j = 0%nat) as -> by lia.
      injection Hlook as <-. split; [exact Hnow | lia].
    + intros Hrec. apply IH in Hrec as (i & Hit & Hall).
      exists (S i). split; [lia |].
      intros [| j] tk Hj Hlook.
      * injection Hlook as <-. split; [exact Hnow |]. intros _.
        cbn [Miner.in_effect]. rewrite Hrefresh. cbn [snd].
        unfold BN.gt in Hgt. apply Z.ltb_ge in Hgt. exact Hgt.
      * cbn [Miner.in_effect]. rewrite Hrefresh.
        destruct (Hall j tk ltac:(lia) Hlook) as [H1 H2].
        split; [exact H1 |]. intros Hlt. apply H2. lia.
Qed.

(** A solution is the first one: every earlier pass of the loop ran before
    the deadline and found a distance that did not exceed the difficulty in
    effect in that pass; the pass of the solution ran before the deadline
    too. *)
Theorem mine_returns_first_solution tsStart env currentTimestamp threshold calc res :
  Miner.mine tsStart env currentTimestamp threshold calc = Miner.Solved res ->
  exists i : nat,
    Miner.sol_iterations res = Z.of_nat i + 1
    /\ forall (j : nat) (tk : Miner.tick),
         (j <= i)%nat -> env !! j = Some tk ->
         Miner.tk_now tk <= tsStart + Miner.MAX_TIMEOUT_SECONDS * 1000
         /\ ((j < i)%nat ->
             Miner.tk_result tk
             <= BN.toZ (snd (Miner.in_effect calc (currentTimestamp, threshold) env j))).
Proof.
  unfold Miner.mine. intros H. apply mine_loop_first in H as (i & Hit & Hall).
  exists i. split; [lia | exact Hall].
Qed.

Lemma mine_returns_first_solution_witness :
  exists res,
    Miner.mine 999 two_passes 10 (BN.JsNumber 100)
               (Some (fun now => BN.JsNumber 500)) = Miner.Solved res
    /\ exists i : nat,
         Miner.sol_iterations res = Z.of_nat i + 1
         /\ forall (j : nat) (tk : Miner.tick),
              (j <= i)%nat -> two_passes !! j = Some tk ->
              Miner.tk_now tk <= 999 + Miner.MAX_TIMEOUT_SECONDS * 1000
              /\ ((j < i)%nat ->
                  Miner.tk_result tk
                  <= BN.toZ (snd (Miner.in_effect (Some (fun now => BN.JsNumber 500))
                                                  (10, BN.JsNumber 100) two_passes j))).
Proof.
  eexists. split; [reflexivity |].
  apply (mine_returns_first_solution 999 two_passes 10 (BN.JsNumber 100)
           (Some (fun now => BN.JsNumber 500))).
  reflexivity.
Defined.

(** When [mine] gives up, the clock read in its last pass was past the
    deadline of 300 seconds, and no earlier pass was. *)
Theorem mine_timeout_after_deadline tsStart env currentTimestamp threshold calc n :
  Miner.mine tsStart env currentTimestamp threshold calc = Miner.TimedOut n ->
  exists (i : nat) (tk : Miner.tick),
    n = Z.of_nat i + 1
    /\ env !! i = Some tk
    /\ tsStart + 300000 < Miner.tk_now tk
    /\ forall (j : nat) (tk' : Miner.tick),
         (j < i)%nat -> env !! j = Some tk' -> Miner.tk_now tk' <= tsStart + 300000.
Proof.
  unfold Miner.mine.
  change (tsStart + Miner.MAX_TIMEOUT_SECONDS * 1000) with (tsStart + 300 * 1000).
  replace (tsStart + 300 * 1000) with (tsStart + 300000) by lia.
  generalize (tsStart + 300000) as maxEnd. intros maxEnd.
  assert (Hgen : forall env ts difficulty iterations,
    Miner.mine_loop env tsStart maxEnd calc ts difficulty iterations = Miner.TimedOut n ->
    exists (i : nat) (tk : Miner.tick),
      n = iterations + Z.of_nat i + 1
      /\ env !! i = Some tk
      /\ maxEnd < Miner.tk_now tk
      /\ forall (j : nat) (tk' : Miner.tick),
           (j < i)%nat -> env !! j = Some tk' -> Miner.tk_now tk' <= maxEnd).
  { clear env currentTimestamp threshold.
    induction env as [| tk0 env IH]; intros ts difficulty iterations; [discriminate |].
    cbn [Miner.mine_loop].
    destruct (Z.ltb_spec maxEnd (Miner.tk_now tk0)) as [Hpast | Hnow].
    - intros [= <-]. exists 0%nat, tk0. repeat split; [lia | exact Hpast |].
      intros j tk' Hj. lia.
    - destruct (Miner.refresh calc (Miner.tk_nowSeconds tk0) (ts, difficulty))
        as [ts' difficulty'].
      destruct (BN.new (BN.JsNumber (Miner.tk_result tk0)) 16); [| discriminate].
      destruct (BN.new difficulty' 16); [| discriminate].
      destruct (BN.gt _ _); [discriminate |].
      intros Hrec. apply IH in Hrec as (i & tk & Hn & Hi & Hpast & Hbefore).
      exists (S i), tk. repeat split; [lia | exact Hi | exact Hpast |].
      intros [| j] tk' Hj Hlook; [now injection Hlook as <- |].
      apply (Hbefore j); [lia | exact Hlook]. }
  intros H. apply Hgen in H as (i & tk & Hn & Hrest).
  exists i, tk. split; [lia | exact Hrest].
Qed.

Lemma mine_timeout_after_deadline_witness :
  exists (i : nat) (tk : Miner.tick),
    1 = Z.of_nat i + 1
    /\ late_pass !! i = Some tk
    /\ 999 + 300000 < Miner.tk_now tk
    /\ forall (j : nat) (tk' : Miner.tick),
         (j < i)%nat -> late_pass !! j = Some tk' -> Miner.tk_now tk' <= 999 + 300000.
Proof.
  apply (mine_timeout_after_deadline 999 late_pass 10 (BN.JsNumber 100) None 1).
  reflexivity.
Defined.

(** ** More on the multiverse *)

Lemma sort_insert_sorted a row :
  Multiverse.row_sorted row -> Multiverse.row_sorted (Multiverse.sort_insert a row).
Proof.
  unfold Multiverse.row_sorted.
  induction 1 as [| b row Hsorted IH Hall]; cbn [Multiverse.sort_insert].
  - repeat constructor.
  - unfold BN.gt. destruct (Z.ltb_spec (getTotalDistance a) (getTotalDistance b)).
    + constructor; [exact IH |].
      rewrite sort_insert_perm. constructor; [lia | exact Hall].
    + constructor; [now constructor |].
      constructor; [assumption |].
      eapply Forall_impl; [exact Hall |]. cbn. intros c Hc. lia.
Qed.

Lemma sort_sorted row : Multiverse.row_sorted (Multiverse.sort row).
Proof.
  induction row as [| a row IH]; cbn; [constructor | now apply sort_insert_sorted].
Qed.

Lemma push_rows_sorted self height block :
  Multiverse.rows_sorted self ->
  Multiverse.rows_sorted (Multiverse.push self height block).
Proof.
  intros Hsorted h row. unfold Multiverse.push. cbn [Multiverse._blocks].
  destruct (decide (h = height)) as [-> | Hne].
  - rewrite lookup_insert_eq. intros [= <-].
    destruct (Nat.ltb_spec 1 (length (default [] (Multiverse._blocks self !! height)
                                      ++ [block]))) as [| Hshort];
      [apply sort_sorted |].
    rewrite length_app in Hshort. cbn in Hshort.
    destruct (default [] _) as [| x l]; [repeat constructor | cbn in Hshort; lia].
  - rewrite lookup_insert_ne by congruence. apply Hsorted.
Qed.

Lemma addBlock_cases self block force added self' :
  Multiverse.addBlock self block force = Ok (added, self') ->
  (added = false /\ self' = self)
  \/ (added = true /\ self' = Multiverse.push self (getHeight block) block).
Proof.
  unfold Multiverse.addBlock.
  destruct (Multiverse.hasParent self block) as [hp | e]; [| discriminate].
  destruct (Multiverse.hasChild self block) as [hc | e]; [| discriminate].
  cbn [mbind outcome_bind].
  repeat case_match; intros [= <- <-]; auto.
Qed.

(** [addBlock] keeps every row in descending order of total distance, so
    the first block of a row is one of largest total distance. *)
Theorem addBlock_keeps_rows_sorted self block force added self' :
  Multiverse.rows_sorted self ->
  Multiverse.addBlock self block force = Ok (added, self') ->
  Multiverse.rows_sorted self'
  /\ forall h first rest b,
       Multiverse._blocks self' !! h = Some (first :: rest) ->
       b ∈ rest -> getTotalDistance b <= getTotalDistance first.
Proof.
  intros Hsorted Hadd.
  assert (Hsorted' : Multiverse.rows_sorted self').
  { apply addBlock_cases in Hadd as [[_ ->] | [_ ->]];
      [exact Hsorted | now apply push_rows_sorted]. }
  split; [exact Hsorted' |].
  intros h first rest b Hrow Hb.
  apply Hsorted' in Hrow. apply StronglySorted_inv in Hrow as [_ Hall].
  rewrite Forall_forall in Hall. now apply Hall.
Qed.

Lemma addBlock_keeps_rows_sorted_witness :
  exists self',
    Multiverse.addBlock two_heights block_c false = Ok (true, self')
    /\ Multiverse._blocks self' !! 2 = Some [block_c; block_b]
    /\ Multiverse.rows_sorted self'
    /\ forall h first rest b,
         Multiverse._blocks self' !! h = Some (first :: rest) ->
         b ∈ rest -> getTotalDistance b <= getTotalDistance first.
Proof.
  eexists. split; [reflexivity |]. split; [reflexivity |].
  apply (addBlock_keeps_rows_sorted two_heights block_c false true).
  - unfold Multiverse.rows_sorted, two_heights. cbn [Multiverse._blocks].
    apply map_Forall_insert_2; [repeat constructor |].
    apply map_Forall_insert_2; [repeat constructor |].
    apply map_Forall_empty.
  - reflexivity.
Defined.

(** [addBlock] never drops a block: the result is [false] and nothing
    changes, or it is [true] and the row of the block's height holds the old
    row and the block, while the other rows and the selective flag are as
    before. *)
Theorem addBlock_only_adds self block force added self' :
  Multiverse.addBlock self block force = Ok (added, self') ->
  Multiverse._selective self' = Multiverse._selective self
  /\ (added = false -> self' = self)
  /\ (added = true ->
      exists row,
        Multiverse._blocks self' !! getHeight block = Some row
        /\ row ≡ₚ default [] (Multiverse._blocks self !! getHeight block) ++ [block])
  /\ forall h, h <> getHeight block ->
       Multiverse._blocks self' !! h = Multiverse._blocks self !! h.
Proof.
  intros Hadd. apply addBlock_cases in Hadd as [[-> ->] | [-> ->]].
  - split; [reflexivity |]. split; [reflexivity |].
    split; [discriminate | reflexivity].
  - split; [reflexivity |]. split; [discriminate |].
    split; [intros _; apply push_row |]. intros h Hh. now apply push_other.
Qed.

Lemma addBlock_only_adds_witness :
  exists self',
    Multiverse.addBlock two_heights block_c false = Ok (true, self')
    /\ Multiverse._selective self' = Multiverse._selective two_heights
    /\ (exists row,
          Multiverse._blocks self' !! getHeight block_c = Some row
          /\ row ≡ₚ default [] (Multiverse._blocks two_heights !! getHeight block_c)
                     ++ [block_c])
    /\ forall h, h <> getHeight block_c ->
         Multiverse._blocks self' !! h = Multiverse._blocks two_heights !! h.
Proof.
  eexists. split; [reflexivity |].
  destruct (addBlock_only_adds two_heights block_c false true _ eq_refl)
    as (Hsel & _ & Hrow & Hother).
  split; [exact Hsel |]. split; [exact (Hrow eq_refl) | exact Hother].
Defined.

Lemma push_keyCount self height block :
  Multiverse.keyCount (Multiverse.push self height block)
  = match Multiverse._blocks self !! height with
    | Some _ => Multiverse.keyCount self
    | None => S (Multiverse.keyCount self)
    end.
Proof.
  unfold Multiverse.keyCount, Multiverse.push. cbn [Multiverse._blocks].
  rewrite map_size_insert.
  now destruct (Multiverse._blocks self !! height).
Qed.

(** [addBlock] never lowers the number of populated heights and raises it
    by one at most; a multiverse that has left the syncing mode does not
    return to it by [addBlock]. *)
Theorem addBlock_leaves_syncing self block force added self' :
  Multiverse.addBlock self block force = Ok (added, self') ->
  (Multiverse.keyCount self <= Multiverse.keyCount self'
   <= S (Multiverse.keyCount self))%nat
  /\ (Multiverse.syncing self = false -> Multiverse.syncing self' = false).
Proof.
  intros Hadd.
  assert (Hcount : (Multiverse.keyCount self <= Multiverse.keyCount self'
                    <= S (Multiverse.keyCount self))%nat
                   /\ Multiverse._selective self' = Multiverse._selective self).
  { apply addBlock_cases in Hadd as [[_ ->] | [_ ->]]; [split; [lia | reflexivity] |].
    rewrite push_keyCount. split; [| reflexivity].
    destruct (Multiverse._blocks self !! getHeight block); lia. }
  destruct Hcount as [Hcount Hsel]. split; [exact Hcount |].
  unfold Multiverse.syncing. rewrite Hsel.
  destruct (Nat.ltb_spec (Multiverse.keyCount self) 7),
           (Nat.ltb_spec (Multiverse.keyCount self') 7),
           (Nat.ltb_spec (Multiverse.keyCount self) 1),
           (Nat.ltb_spec (Multiverse.keyCount self') 1),
           (Multiverse._selective self); cbn; intros; congruence || lia.
Qed.

Lemma addBlock_leaves_syncing_witness :
  exists self',
    Multiverse.addBlock seven_heights block_far true = Ok (true, self')
    /\ Multiverse.keyCount self' = 8%nat
    /\ (Multiverse.keyCount seven_heights <= Multiverse.keyCount self'
        <= S (Multiverse.keyCount seven_heights))%nat
    /\ Multiverse.syncing self' = false.
Proof.
  eexists. split; [reflexivity |]. split; [reflexivity |].
  destruct (addBlock_leaves_syncing seven_heights block_far true true _ eq_refl)
    as [Hcount Hsync].
  split; [exact Hcount | exact (Hsync eq_refl)].
Defined.

(** Outside the syncing mode a block with no populated height next to its
    own is taken only when forced: without [force] the multiverse refuses
    it and stays as it is, with [force] the block is appended. *)
Theorem addBlock_unrelated_needs_force self block :
  Multiverse.syncing self = false ->
  Multiverse._blocks self !! (getHeight block - 1) = None ->
  Multiverse._blocks self !! (getHeight block + 1) = None ->
  Multiverse.addBlock self block false = Ok (false, self)
  /\ Multiverse.addBlock self block true
     = Ok (true, Multiverse.push self (getHeight block) block).
Proof.
  intros Hsync Hparent Hchild. unfold Multiverse.addBlock.
  unfold Multiverse.hasParent, Multiverse.hasChild.
  rewrite Hparent, Hchild, Hsync. cbn [mbind outcome_bind orb].
  split; reflexivity.
Qed.

Lemma addBlock_unrelated_needs_force_witness :
  Multiverse.addBlock seven_heights block_far false = Ok (false, seven_heights)
  /\ Multiverse.addBlock seven_heights block_far true
     = Ok (true, Multiverse.push seven_heights (getHeight block_far) block_far).
Proof.
  apply (addBlock_unrelated_needs_force seven_heights block_far); reflexivity.
Defined.

(** ** More on the block pool *)

Lemma purgeFrom_range del_rejects start end_ self :
  2 <= end_ <= start ->
  exists store',
    BlockPool.purgeFrom del_rejects start end_ self
    = (Resolved VTrue, BlockPool.set_persistence store' self)
    /\ (forall i, end_ < i <= start ->
          del_rejects (Persistence.block_key i) = false ->
          store' !! Persistence.block_key i = None)
    /\ (forall key,
          (forall i, end_ < i <= start ->
                     key = Persistence.block_key i -> del_rejects key = true) ->
          store' !! key = BlockPool._persistence self !! key).
Proof.
  intros Hrange.
  exists (BlockPool.purge_keys del_rejects (BlockPool._persistence self) start
            (Z.to_nat (start - end_))).
  split; [apply purgeFrom_resolves; lia |]. split.
  - intros i Hi Hrej. apply purge_keys_gone; [lia | exact Hrej].
  - intros key Hkey. apply purge_keys_kept. intros i Hi. apply Hkey. lia.
Qed.

(** From a start at or above an end of 2 or more, [purgeFrom] resolves; the
    keys bc.block.<i> with [end < i <= start] that the store agrees to
    delete are gone, every other key holds what it held, and nothing but
    the store changes. *)
Theorem purgeFrom_deletes_range del_rejects start end_ self :
  2 <= end_ <= start ->
  exists store',
    BlockPool.purgeFrom del_rejects start end_ self
    = (Resolved VTrue, BlockPool.set_persistence store' self)
    /\ (forall i, end_ < i <= start ->
          del_rejects (Persistence.block_key i) = false ->
          store' !! Persistence.block_key i = None)
    /\ (forall key,
          (forall i, end_ < i <= start ->
                     key = Persistence.block_key i -> del_rejects key = true) ->
          store' !! key = BlockPool._persistence self !! key).
Proof. apply purgeFrom_range. Qed.

Lemma purgeFrom_deletes_range_witness :
  exists store',
    BlockPool.purgeFrom (fun _ => false) 4 2 stored_2_3_4
    = (Resolved VTrue, BlockPool.set_persistence store' stored_2_3_4)
    /\ (forall i, 2 < i <= 4 ->
          (fun _ : string => false) (Persistence.block_key i) = false ->
          store' !! Persistence.block_key i = None)
    /\ (forall key,
          (forall i, 2 < i <= 4 ->
                     key = Persistence.block_key i -> (fun _ : string => false) key = true) ->
          store' !! key = BlockPool._persistence stored_2_3_4 !! key).
Proof.
  apply (purgeFrom_deletes_range (fun _ => false) 4 2 stored_2_3_4). lia.
Defined.

(** A second [purgeFrom] over the same range finds nothing left to delete:
    it resolves and leaves the store as the first one left it. *)
Theorem purgeFrom_twice del_rejects start end_ self self' :
  2 <= end_ <= start ->
  (forall i, end_ < i <= start -> del_rejects (Persistence.block_key i) = false) ->
  BlockPool.purgeFrom del_rejects start end_ self = (Resolved VTrue, self') ->
  BlockPool.purgeFrom del_rejects start end_ self' = (Resolved VTrue, self').
Proof.
  intros Hrange Hdel Hfirst.
  destruct (purgeFrom_range del_rejects start end_ self Hrange)
    as (store1 & H1 & Hgone1 & _).
  rewrite H1 in Hfirst. injection Hfirst as <-.
  destruct (purgeFrom_range del_rejects start end_
              (BlockPool.set_persistence store1 self) Hrange)
    as (store2 & H2 & Hgone2 & Hkept2).
  rewrite H2. cbn [BlockPool.set_persistence BlockPool._persistence] in *.
  assert (Heq : store2 = store1); [| now rewrite Heq].
  apply map_eq. intros key.
  destruct (decide (key ∈ Persistence.block_key <$> seqZ (end_ + 1) (start - end_)))
    as [Hin | Hout].
  - apply list_elem_of_fmap in Hin as (i & -> & Hi). apply elem_of_seqZ in Hi.
    rewrite Hgone1 by (try apply Hdel; lia).
    rewrite Hgone2 by (try apply Hdel; lia). reflexivity.
  - apply Hkept2. intros i Hi ->. exfalso. apply Hout.
    apply list_elem_of_fmap. exists i. split; [reflexivity |].
    apply elem_of_seqZ. lia.
Qed.

Lemma purgeFrom_twice_witness :
  let self' := snd (BlockPool.purgeFrom (fun _ => false) 4 2 stored_2_3_4) in
  BlockPool.purgeFrom (fun _ => false) 4 2 self' = (Resolved VTrue, self').
Proof.
  intros self'.
  apply (purgeFrom_twice (fun _ => false) 4 2 stored_2_3_4 self').
  - lia.
  - reflexivity.
  - subst self'.
    rewrite (purgeFrom_resolves (fun _ => false) 2 4 2 stored_2_3_4) by (lia || reflexivity).
    reflexivity.
Defined.

Lemma purge_calls_purgeFrom del_rejects height self :
  2 <= height ->
  BlockPool.purgeFrom del_rejects height 1 self
  = (Rejected (Error "cannot purge below height 2"),
     BlockPool.set_persistence
       (BlockPool.purge_keys del_rejects (BlockPool._persistence self) height
          (Z.to_nat (height - 1))) self).
Proof.
  intros Hh. apply purgeFrom_rejects_late; [lia | now left | lia].
Qed.

(** [purge] never resolves: it rejects when the latest block cannot be read
    or a check fails, and when the checks pass, the call of
    [purgeFrom(height, 1)] it ends with rejects after its deletions. *)
Theorem purge_always_rejects del_rejects checkpoint self :
  exists e self',
    async (BlockPool.purge del_rejects checkpoint) self = (Rejected e, self').
Proof.
  unfold BlockPool.purge, async, try_catch, mbind, M_bind, BlockPool.store_get, gets,
    Persistence.get.
  destruct checkpoint as [| | cp];
    destruct (BlockPool._persistence self !! "bc.block.latest") as [latest |];
    cbn [await mret M_ret throw]; eauto.
  - destruct (Z.ltb_spec (getHeight latest - 1) 2); [eauto |].
    rewrite purge_calls_purgeFrom by lia. eauto.
  - destruct (Z.ltb_spec (getHeight latest - 1) 2); [eauto |].
    rewrite purge_calls_purgeFrom by lia. eauto.
  - destruct (Z.ltb_spec (getHeight cp - 1) 2); [eauto |].
    destruct (Z.ltb_spec (getHeight latest) (getHeight cp - 1)); [eauto |].
    unfold modify. rewrite purge_calls_purgeFrom by lia. eauto.
Qed.

(** With a checkpoint whose predecessor height is at least 2 and not above
    the latest block, [purge] records the checkpoint and deletes the keys
    bc.block.<i> from height 2 up to the height below the checkpoint (those
    the store agrees to delete); every other key is kept.  It then rejects
    with 'cannot purge below height 2'. *)
Theorem purge_below_checkpoint del_rejects cp latest self :
  BlockPool._persistence self !! "bc.block.latest" = Some latest ->
  2 <= getHeight cp - 1 <= getHeight latest ->
  exists store',
    async (BlockPool.purge del_rejects (BlockPool.CpBlock cp)) self
    = (Rejected (Error "cannot purge below height 2"),
       BlockPool.set_persistence store'
         (BlockPool.set_checkpoint (BlockPool.CpBlock cp) self))
    /\ (forall i, 2 <= i <= getHeight cp - 1 ->
          del_rejects (Persistence.block_key i) = false ->
          store' !! Persistence.block_key i = None)
    /\ (forall key,
          (forall i, 2 <= i <= getHeight cp - 1 ->
                     key = Persistence.block_key i -> del_rejects key = true) ->
          store' !! key = BlockPool._persistence self !! key).
Proof.
  intros Hlatest Hrange.
  exists (BlockPool.purge_keys del_rejects (BlockPool._persistence self)
            (getHeight cp - 1) (Z.to_nat (getHeight cp - 1 - 1))).
  split; [| split].
  - unfold BlockPool.purge, async, try_catch, mbind, M_bind, BlockPool.store_get, gets,
      Persistence.get. rewrite Hlatest. cbn [await mret M_ret].
    destruct (Z.ltb_spec (getHeight cp - 1) 2); [lia |].
    destruct (Z.ltb_spec (getHeight latest) (getHeight cp - 1)); [lia |].
    unfold modify. rewrite purge_calls_purgeFrom by lia. reflexivity.
  - intros i Hi Hrej. apply purge_keys_gone; [lia | exact Hrej].
  - intros key Hkey. apply purge_keys_kept. intros i Hi. apply Hkey. lia.
Qed.

(** ** More on the engine: storeHeight *)

(** [storeHeight] writes no key but bc.block.<height> of its block, and
    nothing at all for a block below height 2. *)
Theorem storeHeight_touches_one_key msg self :
  (forall key,
     key <> Persistence.block_key (getHeight (Engine.data msg)) ->
     Engine._persistence (snd (Engine.storeHeight msg self)) !! key
     = Engine._persistence self !! key)
  /\ (getHeight (Engine.data msg) < 2 ->
      Engine.storeHeight msg self = (Resolved VUndefined, self)).
Proof.
  split.
  - intros key Hkey.
    unfold Engine.storeHeight, Engine.storeHeight_body, async, try_catch, mbind, M_bind,
      Engine.store_get, Engine.store_put, gets, modify, lift, await, mret, M_ret, throw,
      Persistence.get, Persistence.put, BN.lt_boolean.
    repeat case_match; simplify_eq; cbn;
      rewrite ?lookup_insert_ne by congruence; reflexivity.
  - intros Hlow. unfold Engine.storeHeight, Engine.storeHeight_body, async.
    destruct (Z.ltb_spec (getHeight (Engine.data msg)) 2); [reflexivity | lia].
Qed.

(** A forced [storeHeight] of a block of height 2 or more resolves with the
    block; a get of bc.block.<height> then returns it, and no warning is
    logged. *)
Theorem storeHeight_forced msg self :
  2 <= getHeight (Engine.data msg) -> Engine.force msg = Some true ->
  exists self',
    Engine.storeHeight msg self = (Resolved (VBlock (Engine.data msg)), self')
    /\ Persistence.get (Engine._persistence self')
         (Persistence.block_key (getHeight (Engine.data msg)))
       = Resolved (Engine.data msg)
    /\ Engine.warnings self' = Engine.warnings self.
Proof.
  intros Hh Hf. unfold Engine.storeHeight, Engine.storeHeight_body, async.
  destruct (Z.ltb_spec (getHeight (Engine.data msg)) 2); [lia |].
  rewrite bool_decide_eq_true_2 by exact Hf.
  eexists. split; [reflexivity |].
  cbn [Engine._persistence Engine.set_persistence Engine.warnings].
  unfold Persistence.get. now rewrite lookup_insert_eq.
Qed.

Lemma storeHeight_forced_witness :
  exists self',
    Engine.storeHeight {| Engine.data := block_c; Engine.force := Some true |} engine_a
    = (Resolved (VBlock block_c), self')
    /\ Persistence.get (Engine._persistence self') (Persistence.block_key 2)
       = Resolved block_c
    /\ Engine.warnings self' = Engine.warnings engine_a.
Proof.
  apply (storeHeight_forced {| Engine.data := block_c; Engine.force := Some true |}
           engine_a).
  - simpl. lia.
  - reflexivity.
Defined.

(** Without the force flag [storeHeight] has two outcomes only: it rejects
    with 'block state did not match' and changes nothing, which it does
    whenever a predecessor is stored (with a total distance that is not
    negative, if its hash matches); or it stores the block as an orphan,
    with the warning.  It never stores a block as the successor of its
    stored predecessor. *)
Theorem storeHeight_unforced_outcomes msg self :
  let block := Engine.data msg in
  let prev := Engine._persistence self !! Persistence.block_key (getHeight block - 1) in
  2 <= getHeight block -> Engine.force msg <> Some true ->
  (Engine.storeHeight msg self = (Rejected (Error "block state did not match"), self)
   /\ exists p, prev = Some p
                /\ (getHash p = getPreviousHash block -> 0 <= getTotalDistance p))
  \/ (Engine.storeHeight msg self
      = (Resolved VTrue,
         Engine.warn (" stored orphan " +:+ Engine.describe block)
           (Engine.set_persistence
              (<[Persistence.block_key (getHeight block) := block]>
                 (Engine._persistence self)) self))
      /\ (prev = None
          \/ exists p, prev = Some p /\ getHash p = getPreviousHash block
                       /\ getTotalDistance p < 0)).
Proof.
  intros block prev Hh Hf. subst block prev.
  rewrite storeHeight_unforced by assumption.
  unfold async, try_catch, mbind, M_bind, Engine.store_get, gets, Persistence.get.
  destruct (Engine._persistence self !! _) as [p |] eqn:Hp;
    [| right; split; [reflexivity | now left]].
  cbn [await mret M_ret].
  case_bool_decide as Hhash.
  - unfold lift, BN.lt_boolean.
    destruct (Z.ltb_spec (getTotalDistance p) 0) as [Hneg | Hpos].
    + right. split; [reflexivity |]. right. eauto.
    + left. split; [reflexivity |]. eauto.
  - left. split; [reflexivity |]. exists p. split; [reflexivity |].
    intros Heq. contradiction.
Qed.

Lemma storeHeight_unforced_outcomes_witness :
  Engine.storeHeight (plain block_b) engine_a
  = (Rejected (Error "block state did not match"), engine_a).
Proof.
  destruct (storeHeight_unforced_outcomes (plain block_b) engine_a)
    as [[Hrej _] | [_ [Hnone | (p & Hp & _ & Hneg)]]].
  - simpl. lia.
  - discriminate.
  - exact Hrej.
  - vm_compute in Hnone. discriminate Hnone.
  - vm_compute in Hp. injection Hp as <-. vm_compute in Hneg. discriminate Hneg.
Defined.

(** ** More on the engine: tips and mining *)

Lemma handle_counter self ev c n :
  Engine._collectedBlocks self !! c = Some (Engine.Count n) ->
  Engine._collectedBlocks (Engine.handle self ev) !! c
  = Some (Engine.Count (n + Engine.tips_of c [ev])).
Proof.
  intros Hc.
  assert (Hsame : forall self', Engine.same_counters self self' ->
            Engine._collectedBlocks self' !! c = Some (Engine.Count (n + 0))).
  { intros self' (_ & -> & _). now rewrite Z.add_0_r. }
  assert (Heq : forall a b : Z, a = b -> Some (Engine.Count a) = Some (Engine.Count b))
    by congruence.
  destruct ev; cbn [Engine.handle Engine.tips_of];
    try (apply Hsame; repeat split; fail).
  - destruct (collectBlock_same_as_count_tip rovers blockchain m self) as (_ & -> & _).
    rewrite count_tip_counters.
    case_bool_decide as Hb.
    + subst blockchain. rewrite lookup_insert_eq, Hc.
      cbn [Engine.incr]. apply Heq. lia.
    + rewrite lookup_insert_ne by exact Hb. rewrite Hc. apply Heq. lia.
  - apply Hsame, storeHeight_same_counters.
  - apply Hsame. unfold Engine.stopMining. destruct (Engine.is_process _); repeat split.
  - apply Hsame. unfold Engine.restartMining, Engine.stopMining.
    destruct (Engine.is_process _); repeat split.
  - apply Hsame. unfold Engine._handleWorkerError.
    destruct (Engine.is_process _); repeat split.
  - apply Hsame. unfold Engine._handleWorkerExit. repeat case_match; repeat split.
Qed.

Lemma tips_of_cons c ev evs :
  Engine.tips_of c (ev :: evs) = Engine.tips_of c [ev] + Engine.tips_of c evs.
Proof. destruct ev; cbn [Engine.tips_of]; lia. Qed.

Lemma run_counter c : forall evs self n,
  Engine._collectedBlocks self !! c = Some (Engine.Count n) ->
  Engine._collectedBlocks (Engine.run self evs) !! c
  = Some (Engine.Count (n + Engine.tips_of c evs)).
Proof.
  induction evs as [| ev evs IH]; intros self n Hn.
  - cbn. now rewrite Z.add_0_r.
  - cbn [Engine.run foldl]. rewrite tips_of_cons.
    rewrite (IH _ (n + Engine.tips_of c [ev])) by now apply handle_counter.
    do 2 f_equal. lia.
Qed.

Lemma created_counter known persistence c :
  c ∈ known ->
  Engine._collectedBlocks (Engine.create known persistence) !! c = Some (Engine.Count 0).
Proof.
  intros Hc. cbn [Engine.create Engine._collectedBlocks].
  rewrite create_counters. now rewrite bool_decide_eq_true_2.
Qed.

(** The counter of a known rover is the number of its tips among the
    events the engine has processed; no other event changes it. *)
Theorem collected_counts_tips known persistence evs c :
  c ∈ known ->
  Engine._collectedBlocks (Engine.run (Engine.create known persistence) evs) !! c
  = Some (Engine.Count (Engine.tips_of c evs)).
Proof.
  intros Hc.
  now rewrite (run_counter c evs _ 0) by now apply created_counter.
Qed.

Lemma collected_counts_tips_witness :
  Engine._collectedBlocks (Engine.run engine_a one_tip_each) !! "btc"
  = Some (Engine.Count (Engine.tips_of "btc" one_tip_each)).
Proof.
  apply (collected_counts_tips ["btc"; "eth"]
           (<[Persistence.block_key 1 := block_a]> ∅) one_tip_each "btc").
  set_solver.
Defined.

Lemma tips_of_app c evs evs' :
  Engine.tips_of c (evs ++ evs') = Engine.tips_of c evs + Engine.tips_of c evs'.
Proof.
  induction evs as [| ev evs IH]; [reflexivity |].
  rewrite <- app_comm_cons, tips_of_cons, (tips_of_cons c ev evs), IH. lia.
Qed.

Lemma tips_of_nonneg c evs : 0 <= Engine.tips_of c evs.
Proof.
  induction evs as [| ev evs IH]; [reflexivity |].
  rewrite tips_of_cons. destruct ev; cbn [Engine.tips_of]; try lia.
  case_bool_decide; lia.
Qed.

Lemma run_snoc self evs ev :
  Engine.run self (evs ++ [ev]) = Engine.handle (Engine.run self evs) ev.
Proof. unfold Engine.run. now rewrite foldl_app. Qed.

(** [_canMine] is raised by a tip only, and only when the counters then
    all are at least 1. *)
Lemma handle_raises_canMine self ev :
  Engine._canMine (Engine.handle self ev) = true ->
  Engine._canMine self = true
  \/ Engine.all_collected (Engine._collectedBlocks (Engine.handle self ev)) = true.
Proof.
  assert (Hsame : forall self', Engine.same_counters self self' ->
            Engine._canMine self' = true -> Engine._canMine self = true).
  { intros self' (_ & _ & ->). auto. }
  destruct ev; cbn [Engine.handle]; intros Hm;
    try (left; exact Hm).
  - destruct (collectBlock_same_as_count_tip rovers blockchain m self) as (_ & Hc & Hcm).
    rewrite Hcm, count_tip_canMine in Hm. rewrite Hc, count_tip_counters.
    apply orb_true_iff in Hm. exact Hm.
  - left. eapply Hsame; [apply storeHeight_same_counters | exact Hm].
  - left. revert Hm. unfold Engine.stopMining. now destruct (Engine.is_process _).
  - left. revert Hm. unfold Engine.restartMining, Engine.stopMining.
    now destruct (Engine.is_process _).
  - left. revert Hm. unfold Engine._handleWorkerError. now destruct (Engine.is_process _).
  - left. revert Hm. unfold Engine._handleWorkerExit. now repeat case_match.
Qed.

Lemma canMine_needs_tips known persistence evs :
  Engine._canMine (Engine.run (Engine.create known persistence) evs) = true ->
  forall c, c ∈ known -> 1 <= Engine.tips_of c evs.
Proof.
  induction evs as [| ev evs IH] using rev_ind; [discriminate |].
  rewrite run_snoc. intros Hm c Hc.
  apply handle_raises_canMine in Hm as [Hm | Hall].
  - specialize (IH Hm c Hc). rewrite tips_of_app.
    pose proof (tips_of_nonneg c [ev]). lia.
  - rewrite <- run_snoc in Hall.
    unfold Engine.all_collected in Hall. apply bool_decide_eq_true_1 in Hall.
    pose proof (run_counter c (evs ++ [ev]) _ 0 (created_counter known persistence c Hc))
      as Hn.
    apply Hall in Hn. cbn in Hn. lia.
Qed.

Lemma handle_keeps_rovers self ev :
  Engine._knownRovers (Engine.handle self ev) = Engine._knownRovers self.
Proof.
  destruct ev; cbn [Engine.handle]; try reflexivity.
  - destruct (collectBlock_same_as_count_tip rovers blockchain m self) as (-> & _).
    apply count_tip_keeps_rovers.
  - now destruct (storeHeight_same_counters msg self) as (-> & _).
  - unfold Engine.stopMining. now destruct (Engine.is_process _).
  - unfold Engine.restartMining, Engine.stopMining. now destruct (Engine.is_process _).
  - unfold Engine._handleWorkerError. now destruct (Engine.is_process _).
  - unfold Engine._handleWorkerExit. now repeat case_match.
Qed.

Lemma run_keeps_rovers evs : forall self,
  Engine._knownRovers (Engine.run self evs) = Engine._knownRovers self.
Proof.
  induction evs as [| ev evs IH]; intros self; [reflexivity |].
  cbn [Engine.run foldl]. fold (Engine.run (Engine.handle self ev) evs).
  now rewrite IH, handle_keeps_rovers.
Qed.

(** [collectBlock] starts the miner only when every known rover has
    delivered a tip (the one at hand included), no peer is syncing, and the
    rovers it is given are the known ones. *)
Theorem mining_needs_every_rover known persistence evs rovers blockchain m :
  let self := Engine.run (Engine.create known persistence) evs in
  fst (Engine.collectBlock rovers blockchain m self) = true ->
  (forall c, c ∈ known ->
             1 <= Engine.tips_of c (evs ++ [Engine.CollectBlock rovers blockchain m]))
  /\ Engine._peerIsSyncing self = false
  /\ list_to_set known =@{gset string} list_to_set rovers.
Proof.
  intros self Hstart.
  assert (Hm : Engine._canMine (Engine.count_tip blockchain self) = true
               /\ Engine._peerIsSyncing (Engine.count_tip blockchain self) = false
               /\ Engine.same_rovers (Engine.count_tip blockchain self) rovers = true).
  { revert Hstart. unfold Engine.collectBlock.
    destruct (Engine._canMine _) eqn:E1; [| discriminate].
    destruct (Engine._peerIsSyncing _) eqn:E2; [discriminate |].
    destruct (Engine.same_rovers _ _) eqn:E3; [auto | discriminate]. }
  destruct Hm as (Hcan & Hsync & Hrov). split; [| split].
  - apply (canMine_needs_tips known persistence). rewrite run_snoc. fold self.
    cbn [Engine.handle].
    destruct (collectBlock_same_as_count_tip rovers blockchain m self) as (_ & _ & ->).
    exact Hcan.
  - revert Hsync. unfold Engine.count_tip. now destruct (_ && _).
  - unfold Engine.same_rovers in Hrov. apply bool_decide_eq_true_1 in Hrov.
    rewrite count_tip_keeps_rovers in Hrov. subst self.
    rewrite run_keeps_rovers in Hrov. exact Hrov.
Qed.

Lemma mining_needs_every_rover_witness :
  (forall c, c ∈ ["btc"; "eth"] ->
     1 <= Engine.tips_of c ([Engine.CollectBlock ["btc"; "eth"] "btc" idle]
                            ++ [Engine.CollectBlock ["eth"; "btc"] "eth" idle]))
  /\ Engine._peerIsSyncing (Engine.run engine_a [Engine.CollectBlock ["btc"; "eth"] "btc" idle])
     = false
  /\ list_to_set ["btc"; "eth"] =@{gset string} list_to_set ["eth"; "btc"].
Proof.
  apply (mining_needs_every_rover ["btc"; "eth"]
           (<[Persistence.block_key 1 := block_a]> ∅)
           [Engine.CollectBlock ["btc"; "eth"] "btc" idle] ["eth"; "btc"] "eth" idle).
  vm_compute. reflexivity.
Defined.

(** [stopMining] returns true exactly when a worker process was running;
    it then leaves null for the handle, and a second call returns false
    and changes nothing. *)
Theorem stopMining_once self :
  let '(stopped, self') := Engine.stopMining self in
  stopped = Engine.is_process (Engine._workerProcess self)
  /\ Engine.is_process (Engine._workerProcess self') = false
  /\ Engine.stopMining self' = (false, self')
  /\ (stopped = false -> self' = self).
Proof.
  unfold Engine.stopMining.
  destruct (Engine.is_process (Engine._workerProcess self)) eqn:E.
  - cbn. repeat split; discriminate.
  - rewrite E. repeat split.
Qed.

(** ** More on the engine: updateLatestAndStore *)

Section UpdateLatest.
Variable blockpool_purgeFrom : Z -> Z -> Persistence.db -> promise value * Persistence.db.

Lemma drain_stores multiverse : forall self,
  Engine.drain multiverse self
  = (Ok tt,
     Engine.set_persistence
       (foldr (fun b d => <[Persistence.block_key (getHeight b) := b]> d)
              (Engine._persistence self) multiverse) self).
Proof.
  induction multiverse as [| b rest IH]; intros self.
  - now destruct self.
  - cbn [Engine.drain foldr] in *. unfold mbind, M_bind at 1. rewrite IH.
    reflexivity.
Qed.

Lemma foldr_insert_first (l1 l2 : list BcBlock) b (store : Persistence.db) :
  Forall (fun b' => getHeight b' <> getHeight b) l1 ->
  foldr (fun b d => <[Persistence.block_key (getHeight b) := b]> d) store (l1 ++ b :: l2)
  !! Persistence.block_key (getHeight b) = Some b.
Proof.
  induction 1 as [| b' l1 Hne _ IH]; cbn [app foldr].
  - apply lookup_insert_eq.
  - rewrite lookup_insert_ne; [exact IH |].
    intros Heq. now apply block_key_inj in Heq.
Qed.

(** With no latest block in the store, [updateLatestAndStore] makes the
    block it is given the latest one and stores it under its height,
    whatever its hash and timestamp; it resolves with true, and the
    multiverse list and the purge height of the message are not used. *)
Theorem updateLatestAndStore_first_block msg block self :
  Engine._persistence self !! "bc.block.latest" = None ->
  Engine.u_data msg = Some block ->
  let '(r, self') := Engine.updateLatestAndStore blockpool_purgeFrom msg self in
  r = Resolved VTrue
  /\ Engine._persistence self'
     = <[Persistence.block_key (getHeight block) := block]>
         (<["bc.block.latest" := block]> (Engine._persistence self))
  /\ Engine.warnings self' = Engine.warnings self ++ ["Error: key not found"].
Proof.
  intros Hnone Hdata.
  unfold Engine.updateLatestAndStore, Engine.updateLatestAndStore_body, async, try_catch,
    mbind, M_bind, Engine.store_get, gets, Persistence.get.
  rewrite Hnone, Hdata. cbn. auto.
Qed.

(** Without the force flag, the latest block after the call is the one
    before it, or it is the block of the message, which then names the
    former latest as its parent and is not older than it. *)
Theorem updateLatestAndStore_unforced msg prev self :
  Engine._persistence self !! "bc.block.latest" = Some prev ->
  Engine.u_force msg <> Some true ->
  let '(r, self') := Engine.updateLatestAndStore blockpool_purgeFrom msg self in
  r = Resolved VTrue
  /\ exists latest,
       Engine._persistence self' !! "bc.block.latest" = Some latest
       /\ (latest = prev
           \/ (Engine.u_data msg = Some latest
               /\ getPreviousHash latest = getHash prev
               /\ getTimestamp prev <= getTimestamp latest)).
Proof.
  intros Hprev Hforce.
  unfold Engine.updateLatestAndStore, Engine.updateLatestAndStore_body, async, try_catch,
    mbind, M_bind, Engine.store_get, gets, Persistence.get.
  cbv zeta. rewrite Hprev. cbn [await mret M_ret].
  destruct (Engine.u_data msg) as [block |].
  - cbn [mret M_ret]. rewrite (bool_decide_eq_false_2 _ Hforce), orb_false_r.
    case_bool_decide as Hhash; cbn [andb];
      [destruct (Z.leb_spec (getTimestamp prev) (getTimestamp block)) |]; cbn.
    + split; [reflexivity |]. exists block. split.
      * destruct (Engine._workerProcess self); cbn;
          (destruct (decide (Persistence.block_key (getHeight block) = "bc.block.latest"))
             as [-> | Hne];
           [apply lookup_insert_eq
           | rewrite lookup_insert_ne by exact Hne; apply lookup_insert_eq]).
      * right. auto.
    + split; [reflexivity |]. exists prev. auto.
    + split; [reflexivity |]. exists prev. auto.
  - cbn. split; [reflexivity |]. exists prev. auto.
Qed.

(** A forced update with a multiverse list, on a store that has a latest
    block: every height of the list then holds the first block that the
    list has for it (the list is taken from its end), and the call
    resolves with true. *)
Theorem updateLatestAndStore_stores_multiverse msg prev block l1 b l2 self :
  Engine._persistence self !! "bc.block.latest" = Some prev ->
  Engine.u_data msg = Some block ->
  Engine.u_force msg = Some true ->
  Engine.u_multiverse msg = Some (l1 ++ b :: l2) ->
  Forall (fun b' => getHeight b' <> getHeight b) l1 ->
  let '(r, self') := Engine.updateLatestAndStore blockpool_purgeFrom msg self in
  r = Resolved VTrue
  /\ Engine._persistence self' !! Persistence.block_key (getHeight b) = Some b.
Proof.
  intros Hprev Hdata Hforce Hmv Hfirst.
  unfold Engine.updateLatestAndStore, Engine.updateLatestAndStore_body, async, try_catch,
    mbind, M_bind, Engine.store_get, gets, Persistence.get.
  cbv zeta. rewrite Hprev, Hdata. cbn [await mret M_ret].
  rewrite Hmv, (bool_decide_eq_true_2 _ Hforce), orb_true_r.
  cbn [andb].
  destruct (_ <=? _); cbn; rewrite drain_stores; cbn;
    (split; [reflexivity | now apply foldr_insert_first]).
Qed.

(** Only the purge of the block pool can make [updateLatestAndStore]
    reject: unless the message is forced, has no multiverse list and has
    a purge height, the call resolves with true. *)
Theorem updateLatestAndStore_resolves msg self :
  Engine.u_force msg <> Some true
  \/ Engine.u_multiverse msg <> None
  \/ Engine.u_purge msg = None ->
  fst (Engine.updateLatestAndStore blockpool_purgeFrom msg self) = Resolved VTrue.
Proof.
  intros Hcase.
  unfold Engine.updateLatestAndStore, Engine.updateLatestAndStore_body, async, try_catch,
    mbind, M_bind, Engine.store_get, gets, Persistence.get, Engine.store_put,
    Persistence.put, modify.
  cbv zeta. destruct (Engine._persistence self !! "bc.block.latest") as [prev |];
    cbn [await mret M_ret throw];
    [| now destruct (Engine.u_data msg)].
  destruct (Engine.u_data msg) as [block |]; [| reflexivity].
  cbn [mret M_ret].
  destruct (bool_decide (Engine.u_force msg = Some true)) eqn:Hf.
  - apply bool_decide_eq_true_1 in Hf.
    destruct (Engine.u_multiverse msg) as [l |] eqn:Hmv.
    + destruct (_ && _); cbn; now rewrite drain_stores.
    + destruct Hcase as [Hc | [Hc | Hc]]; [contradiction | contradiction |].
      rewrite Hc. now destruct (_ && _).
  - now destruct (_ && _).
Qed.

End UpdateLatest.

Lemma updateLatestAndStore_first_block_witness :
  let '(r, self') :=
    Engine.updateLatestAndStore node_purgeFrom (forced_update block_c [block_b]) engine_a in
  r = Resolved VTrue
  /\ Engine._persistence self'
     = <[Persistence.block_key (getHeight block_c) := block_c]>
         (<["bc.block.latest" := block_c]> (Engine._persistence engine_a))
  /\ Engine.warnings self' = Engine.warnings engine_a ++ ["Error: key not found"].
Proof.
  apply (updateLatestAndStore_first_block node_purgeFrom (forced_update block_c [block_b])
           block_c engine_a); reflexivity.
Defined.

Lemma updateLatestAndStore_unforced_witness :
  let '(r, self') :=
    Engine.updateLatestAndStore node_purgeFrom (update_of block_b) engine_latest in
  r = Resolved VTrue
  /\ exists latest,
       Engine._persistence self' !! "bc.block.latest" = Some latest
       /\ (latest = block_a
           \/ (Engine.u_data (update_of block_b) = Some latest
               /\ getPreviousHash latest = getHash block_a
               /\ getTimestamp block_a <= getTimestamp latest)).
Proof.
  apply (updateLatestAndStore_unforced node_purgeFrom (update_of block_b) block_a
           engine_latest).
  - reflexivity.
  - discriminate.
Defined.

Lemma updateLatestAndStore_stores_multiverse_witness :
  let '(r, self') :=
    Engine.updateLatestAndStore node_purgeFrom
      (forced_update block_b [block_a; block_b; block_c]) engine_latest in
  r = Resolved VTrue
  /\ Engine._persistence self' !! Persistence.block_key (getHeight block_b) = Some block_b.
Proof.
  apply (updateLatestAndStore_stores_multiverse node_purgeFrom
           (forced_update block_b [block_a; block_b; block_c]) block_a block_b
           [block_a] block_b [block_c] engine_latest).
  - reflexivity.
  - reflexivity.
  - reflexivity.
  - reflexivity.
  - constructor; [simpl; lia | constructor].
Defined.

Lemma updateLatestAndStore_resolves_witness :
  fst (Engine.updateLatestAndStore node_purgeFrom (update_of block_c) engine_latest)
  = Resolved VTrue.
Proof.
  apply (updateLatestAndStore_resolves node_purgeFrom (update_of block_c) engine_latest).
  left. discriminate.
Defined.

Lemma purge_below_checkpoint_witness :
  exists store',
    async (BlockPool.purge (fun _ => false) (BlockPool.CpBlock (block_at 4))) pool_with_latest
    = (Rejected (Error "cannot purge below height 2"),
       BlockPool.set_persistence store'
         (BlockPool.set_checkpoint (BlockPool.CpBlock (block_at 4)) pool_with_latest))
    /\ (forall i, 2 <= i <= getHeight (block_at 4) - 1 ->
          (fun _ : string => false) (Persistence.block_key i) = false ->
          store' !! Persistence.block_key i = None)
    /\ (forall key,
          (forall i, 2 <= i <= getHeight (block_at 4) - 1 ->
                     key = Persistence.block_key i -> (fun _ : string => false) key = true) ->
          store' !! key = BlockPool._persistence pool_with_latest !! key).
Proof.
  apply (purge_below_checkpoint (fun _ => false) (block_at 4) (block_at 5) pool_with_latest).
  - reflexivity.
  - simpl. lia.
Defined.

(** ** The publish/subscribe hub *)

Section SubscribersFacts.
Variables (listener subscriber : Type).
Variable RxPubSub_subscribe : string -> listener -> subscriber.

Lemma subscribe_counts topic context l (self : PubSub.t subscriber) :
  PubSub.counts_subscribers subscriber self ->
  PubSub.counts_subscribers subscriber (snd (PubSub.subscribe listener subscriber RxPubSub_subscribe topic context l self)).
Proof.
  intros Hinv. unfold PubSub.subscribe, PubSub.counts_subscribers, PubSub.t in *.
  case_bool_decide; [exact Hinv |]. case_bool_decide; [exact Hinv |].
  destruct l as [l |]; [| exact Hinv].
  case_bool_decide; [exact Hinv |].
  unfold mbind, M_bind, modify, mret, M_ret. cbn [snd].
  destruct (self !! topic) as [e |] eqn:He.
  - rewrite ?He; cbv beta iota; rewrite lookup_insert_eq; cbv beta iota;
    rewrite insert_insert_eq.
    apply map_Forall_insert_2; [| exact Hinv].
    cbn. rewrite length_app, (Hinv _ _ He). cbn. lia.
  - rewrite ?He; cbv beta iota; rewrite lookup_insert_eq; cbv beta iota;
    rewrite lookup_insert_eq; cbv beta iota; rewrite !insert_insert_eq.
    apply map_Forall_insert_2; [reflexivity | exact Hinv].
Qed.

(** After any sequence of [subscribe] calls on a new hub, the counter of
    every topic is the number of its subscribers; calls that throw are
    not counted. *)
Theorem subscribe_all_counts calls :
  PubSub.counts_subscribers subscriber
    (PubSub.subscribe_all listener subscriber RxPubSub_subscribe calls
       (PubSub.create subscriber)).
Proof.
  assert (Hgen : forall self,
            PubSub.counts_subscribers subscriber self ->
            PubSub.counts_subscribers subscriber
              (PubSub.subscribe_all listener subscriber RxPubSub_subscribe calls self)).
  { induction calls as [| [[topic ctx] l] calls IH]; intros self Hinv; [exact Hinv |].
    cbn [PubSub.subscribe_all foldl]. apply IH. now apply subscribe_counts. }
  apply Hgen. unfold PubSub.counts_subscribers, PubSub.create, PubSub.t.
  apply map_Forall_empty.
Qed.

(** A [subscribe] call that goes through adds one subscriber with the
    given context at the end of the topic's list and leaves the other
    topics alone; a call with an empty topic, an empty context, no
    listener or a topic named like an inherited property throws and
    changes nothing. *)
Theorem subscribe_adds_one topic context l (self : PubSub.t subscriber) :
  match PubSub.subscribe listener subscriber RxPubSub_subscribe topic context l self with
  | (Ok s, self') =>
      (exists f, l = Some f /\ s = RxPubSub_subscribe topic f)
      /\ topic <> "" /\ context <> ""
      /\ (PubSub.subscribers subscriber <$> self' !! topic)
         = Some (default [] (PubSub.subscribers subscriber <$> self !! topic) ++ [(s, context)])
      /\ (forall other, other <> topic -> self' !! other = self !! other)
  | (Throw _, self') =>
      self' = self
      /\ (topic = "" \/ context = "" \/ l = None \/ topic ∈ PubSub.Object_prototype)
  end.
Proof.
  unfold PubSub.subscribe, PubSub.t in *.
  case_bool_decide as Ht; [cbn; auto |]. case_bool_decide as Hc; [cbn; auto |].
  destruct l as [f |]; [| cbn; auto].
  case_bool_decide as Hp; [cbn; auto |].
  unfold mbind, M_bind, modify, mret, M_ret.
  split; [eauto |]. split; [exact Ht |]. split; [exact Hc |].
  destruct (self !! topic) as [e |] eqn:He.
  - rewrite ?He; cbv beta iota; rewrite lookup_insert_eq; cbv beta iota;
    rewrite insert_insert_eq. split.
    + now rewrite lookup_insert_eq.
    + intros other Hne. now rewrite lookup_insert_ne.
  - rewrite ?He; cbv beta iota; rewrite lookup_insert_eq; cbv beta iota;
    rewrite lookup_insert_eq; cbv beta iota; rewrite !insert_insert_eq. split.
    + now rewrite lookup_insert_eq.
    + intros other Hne. rewrite lookup_insert_ne by congruence. reflexivity.
Qed.

End SubscribersFacts.

(** ** The RPC handlers *)

Section HandlersFacts.
Variable serializeBinary : BcBlock -> string.
Variable get_many : list string -> promise (list BcBlock).
Variable store : Persistence.db.

(** [getHeaders] never resolves, whatever the store answers: when both
    hashes are the requested ones, the checking callback returns nothing,
    and the mapping that follows fails on it. *)
Theorem getHeaders_never_resolves from to :
  exists err, Rpc.getHeaders serializeBinary get_many from to = Rejected err.
Proof.
  destruct from as [fromHeight fromHash], to as [toHeight toHash].
  unfold Rpc.getHeaders.
  destruct (_ <? _); [eauto |]. destruct (_ <? _); [eauto |].
  unfold Rpc.then2, Rpc.then_.
  destruct (get_many _) as [blocks | err]; [| cbn; eauto].
  destruct (head blocks) as [first |]; [| cbn; eauto].
  cbn [mbind outcome_bind].
  destruct (negb _); [cbn; eauto |].
  destruct (last blocks) as [lastBlock |]; [| cbn; eauto].
  cbn. destruct (negb _); cbn; eauto.
Qed.

(** [query] never rejects. *)
Theorem query_never_rejects q :
  exists res, Rpc.query serializeBinary get_many store q = Resolved res.
Proof.
  unfold Rpc.query, Rpc.catch_, Rpc.then_, Persistence.get.
  destruct (store !! Persistence.block_key _) as [b |]; [| eauto].
  destruct (negb _); [cbn; eauto |].
  destruct (store !! "bc.block.latest") as [latestBlock |]; [| eauto].
  cbn. destruct (get_many _); cbn; eauto.
Qed.

(** When the block at the queried height is missing or has another hash
    than the queried one, [query] resolves with the empty list, whatever
    a batched get would answer. *)
Theorem query_wrong_hash q :
  (forall b, store !! Persistence.block_key (Rpc.queryHeight q) = Some b ->
             getHash b <> Rpc.queryHash q) ->
  Rpc.query serializeBinary get_many store q = Resolved [].
Proof.
  intros Hwrong.
  unfold Rpc.query, Rpc.catch_, Rpc.then_, Persistence.get.
  destruct (store !! Persistence.block_key _) as [b |]; [| reflexivity].
  rewrite bool_decide_eq_false_2 by now apply Hwrong. reflexivity.
Qed.

Lemma ids_down_bounds height blocksCount id :
  id ∈ Rpc.ids_down height blocksCount ->
  exists h, id = Persistence.block_key h /\ height - blocksCount < h <= height.
Proof.
  unfold Rpc.ids_down. intros (i & -> & Hi)%list_elem_of_fmap.
  apply elem_of_seqZ in Hi. exists (height - i). split; [reflexivity | lia].
Qed.

Lemma ids_down_length height blocksCount :
  length (Rpc.ids_down height blocksCount) = Z.to_nat blocksCount.
Proof. unfold Rpc.ids_down. now rewrite length_fmap, length_seqZ. Qed.

(** With a latest block of height [h], [getLatestHeaders count] asks the
    store for min(count, h, 100000) keys (none if that is not positive),
    each one bc.block.<i> with i from 1 to [h] and above [h - count], and
    serializes what it gets. *)
Theorem getLatestHeaders_asks count latest :
  store !! "bc.block.latest" = Some latest ->
  exists ids,
    Rpc.getLatestHeaders serializeBinary get_many store count
    = match get_many ids with
      | Resolved res => Resolved (serializeBinary <$> res)
      | Rejected err => Rejected err
      end
    /\ length ids
       = Z.to_nat (Z.min (Z.min count (getHeight latest)) Rpc.MAX_BLOCKS_COUNT)
    /\ Z.of_nat (length ids) <= Rpc.MAX_BLOCKS_COUNT
    /\ forall id, id ∈ ids ->
         exists i, id = Persistence.block_key i
                   /\ 1 <= i <= getHeight latest /\ getHeight latest - count < i.
Proof.
  intros Hlatest. eexists. split; [| split; [| split]].
  - unfold Rpc.getLatestHeaders, Rpc.then_, Persistence.get. rewrite Hlatest.
    cbn. reflexivity.
  - apply ids_down_length.
  - rewrite ids_down_length. unfold Rpc.MAX_BLOCKS_COUNT. lia.
  - intros id (i & -> & Hi)%ids_down_bounds. exists i. split; [reflexivity |].
    unfold Rpc.MAX_BLOCKS_COUNT in Hi. lia.
Qed.

(** With a latest block of height [h], [getMultiverse] asks the store for
    the keys of the heights [h] down to [h - 6], or down to 1 if [h] is
    below 7. *)
Theorem getMultiverse_asks latest :
  store !! "bc.block.latest" = Some latest ->
  exists ids,
    Rpc.getMultiverse serializeBinary get_many store
    = match get_many ids with
      | Resolved res => Resolved (serializeBinary <$> res)
      | Rejected err => Rejected err
      end
    /\ ids = (fun i => Persistence.block_key (getHeight latest - i))
             <$> seqZ 0 (Z.min 7 (getHeight latest))
    /\ (length ids <= 7)%nat
    /\ forall i, Persistence.block_key i ∈ ids ->
                 1 <= i /\ getHeight latest - 7 < i <= getHeight latest.
Proof.
  intros Hlatest. eexists. split; [| split; [| split]].
  - unfold Rpc.getMultiverse, Rpc.then_, Persistence.get. rewrite Hlatest.
    cbn. reflexivity.
  - reflexivity.
  - fold (Rpc.ids_down (getHeight latest) (Z.min 7 (getHeight latest))).
    rewrite ids_down_length. lia.
  - intros i (j & Hj & Hb)%ids_down_bounds. apply block_key_inj in Hj. lia.
Qed.

End HandlersFacts.

Lemma query_wrong_hash_witness :
  Rpc.query getHash (get_all three_blocks) three_blocks
    {| Rpc.queryHeight := 2; Rpc.queryHash := "other"; Rpc.low := 1; Rpc.high := 3 |}
  = Resolved [].
Proof.
  apply (query_wrong_hash getHash (get_all three_blocks) three_blocks
           {| Rpc.queryHeight := 2; Rpc.queryHash := "other"; Rpc.low := 1; Rpc.high := 3 |}).
  intros b Hb. vm_compute in Hb. injection Hb as <-. discriminate.
Defined.

Lemma getLatestHeaders_asks_witness :
  exists ids,
    Rpc.getLatestHeaders getHash (get_all three_blocks) three_blocks 2
    = match get_all three_blocks ids with
      | Resolved res => Resolved (getHash <$> res)
      | Rejected err => Rejected err
      end
    /\ length ids
       = Z.to_nat (Z.min (Z.min 2 (getHeight (block_at 3))) Rpc.MAX_BLOCKS_COUNT)
    /\ Z.of_nat (length ids) <= Rpc.MAX_BLOCKS_COUNT
    /\ forall id, id ∈ ids ->
         exists i, id = Persistence.block_key i
                   /\ 1 <= i <= getHeight (block_at 3) /\ getHeight (block_at 3) - 2 < i.
Proof.
  apply (getLatestHeaders_asks getHash (get_all three_blocks) three_blocks 2 (block_at 3)).
  reflexivity.
Defined.

Lemma getMultiverse_asks_witness :
  exists ids,
    Rpc.getMultiverse getHash (get_all three_blocks) three_blocks
    = match get_all three_blocks ids with
      | Resolved res => Resolved (getHash <$> res)
      | Rejected err => Rejected err
      end
    /\ ids = (fun i => Persistence.block_key (getHeight (block_at 3) - i))
             <$> seqZ 0 (Z.min 7 (getHeight (block_at 3)))
    /\ (length ids <= 7)%nat
    /\ forall i, Persistence.block_key i ∈ ids ->
                 1 <= i /\ getHeight (block_at 3) - 7 < i <= getHeight (block_at 3).
Proof.
  apply (getMultiverse_asks getHash (get_all three_blocks) three_blocks (block_at 3)).
  reflexivity.
Defined.
